(** * bybit-bot: a shallow embedding of [src/index.js]

    The program is a single Node.js module: an Express webhook handler
    ([handleTradingViewWebhook]) that turns TradingView notifications into
    Bybit market orders ([placeOrder]), flattens the account on a sell signal
    ([closeAllPositions]) and keeps a SQLite table of trades ([insertTrade],
    [updateTradeStatus], [calculateProfitLoss]).

    Modelling choices.
    - The collaborators (exchange client, SQLite engine, Telegram, process
      environment) are an environment [Env] of oracles indexed by the number
      of calls made so far, so that every behaviour of the outside world is
      covered by some [Env].
    - The program state the code mutates (the [trades] table, its
      AUTOINCREMENT counter) lives in [World], together with the call
      counters and a chronological [trace] of every observable effect.
    - Asynchronous code is modelled in its awaited order; [db.run] callbacks
      and the un-awaited [sendTelegramMessage] are run at their call site.
    - JavaScript numbers (quantities, prices) are abstracted to integers [Z]
      in the model of the program's flow; the arithmetic of line 73 itself
      is embedded over binary64 in [Binary64].
    - Exceptions are an error monad over the state: the state reached before
      a [throw] is kept, as in JavaScript. *)

From stdpp Require Import gmap strings list fin_maps.
From Stdlib Require Import ZArith Lia SpecFloat.

Local Open Scope Z_scope.

(** ** Data model *)

(** One row of the [trades] table (lines 26-33); [id] is the key of the map. *)
Record Trade := mkTrade {
  trade_symbol : option string;
  trade_side : string;
  trade_qty : Z;
  trade_price : Z;
  trade_status : string
}.

(** An element of [positions.result] as destructured at lines 109-115. *)
Record Position := mkPosition {
  pos_id : Z;
  pos_symbol : string;
  pos_side : string;
  pos_size : Z;
  pos_entry_price : Z
}.

(** The object [orderCreate] resolves to; only [price] is read (line 93). *)
Record Order := mkOrder { order_price : Z }.

(** Thrown values. The code only reads [error.message]; the kind records
    where the error came from. *)
Inductive ErrKind :=
| Transport      (* exchange: timeout, network, 5xx *)
| Rejection      (* exchange: business rejection, 4xx *)
| SqliteError    (* err passed to a sqlite3 callback *)
| TypeError      (* property access on undefined *)
| PlainError.    (* new Error(...) *)

Record JsError := mkError { err_kind : ErrKind; err_message : string }.

(** [req.body] after [express.json()]: [{ topic, data: { symbol, recommendation } }].
    A missing property is [None] (undefined). *)
Record Signal := mkSignal {
  sig_symbol : option string;
  sig_recommendation : option string
}.

Record Body := mkBody {
  body_topic : option string;
  body_data : option Signal
}.

Inductive Sql :=
| InsertInto (symbol : option string) (side : string) (qty price : Z)
| UpdateClosed (id : Z).

Inductive Level := PinoInfo | PinoWarn | PinoError | ConsoleLog | ConsoleError.

Inductive LogLine :=
| ErrorInsertingTrade (m : string)
| TradeInserted
| ErrorUpdatingStatus (m : string)
| TradeStatusUpdated
| OrderPlaced (side : string) (qty : Z) (symbol : option string)
| ErrorPlacingOrder (m : string)
| TradeProfitLoss (id profitLoss : Z)
| AllPositionsClosed
| ErrorClosingPositions (m : string)
| UnexpectedTopic (topic : option string)
| ErrorProcessingWebhook (m : string)
| TelegramFailure (e : JsError).

(** Everything the program does to the outside world, in order. *)
Inductive Event :=
| Ev_orderCreate (symbol : option string) (side : string) (qty : Z)
                 (reply : JsError + Order)
| Ev_positionList (reply : JsError + list Position)
| Ev_dbRun (stmt : Sql) (err : option string)
| Ev_dbGet (id : Z) (err : option string) (row : option Trade)
| Ev_calculateProfitLoss (id sellPrice : Z)   (* entry into the function *)
| Ev_log (level : Level) (line : LogLine)
| Ev_telegram (text : LogLine) (err : option JsError)
| Ev_sendStatus (code : nat).

(** The outside world. The n-th call to a collaborator gets the n-th reply. *)
Record Env := mkEnv {
  orderCreate_reply : nat -> option string -> string -> Z -> JsError + Order;
  positionList_reply : nat -> JsError + list Position;
  db_error : nat -> option string;
  telegram_error : nat -> option JsError;
  ORDER_QUANTITY : Z
}.

Record World := mkWorld {
  trades : gmap Z Trade;
  sqlite_sequence : Z;
  order_calls : nat;
  position_calls : nat;
  db_calls : nat;
  telegram_calls : nat;
  trace : list Event
}.

(** [new sqlite3.Database(':memory:')] followed by CREATE TABLE. *)
Definition initial_world : World :=
  mkWorld ∅ 0 0%nat 0%nat 0%nat 0%nat [].

(** ** The error-and-state monad *)

Inductive Completion (A : Type) :=
| Return (a : A)
| Throw (e : JsError).
Arguments Return {A} a.
Arguments Throw {A} e.

Definition M (A : Type) : Type := World -> Completion A * World.

Definition ret {A} (a : A) : M A := fun w => (Return a, w).

Definition throw {A} (e : JsError) : M A := fun w => (Throw e, w).

Definition bind {A B} (m : M A) (k : A -> M B) : M B :=
  fun w =>
    match m w with
    | (Return a, w1) => k a w1
    | (Throw e, w1) => (Throw e, w1)
    end.

(** [try { body } catch (error) { handler }] *)
Definition try_catch {A} (body : M A) (handler : JsError -> M A) : M A :=
  fun w =>
    match body w with
    | (Return a, w1) => (Return a, w1)
    | (Throw e, w1) => handler e w1
    end.

Declare Scope js_scope.
Delimit Scope js_scope with js.
Notation "x <- m ;; k" := (bind m (fun x => k))
  (at level 100, m at next level, right associativity) : js_scope.
Notation "m ;; k" := (bind m (fun _ => k))
  (at level 100, right associativity) : js_scope.
Local Open Scope js_scope.

(** [for (const x of xs) { body x }] *)
Fixpoint for_of {A} (xs : list A) (body : A -> M unit) : M unit :=
  match xs with
  | [] => ret tt
  | x :: rest => body x ;; for_of rest body
  end.

Definition emit (e : Event) : M unit :=
  fun w =>
    (Return tt,
     mkWorld (trades w) (sqlite_sequence w) (order_calls w) (position_calls w)
             (db_calls w) (telegram_calls w) (trace w ++ [e])).

Definition log (level : Level) (line : LogLine) : M unit :=
  emit (Ev_log level line).

(** [v === s] for a possibly undefined string value. *)
Definition js_eq (v : option string) (s : string) : bool :=
  match v with
  | Some t => String.eqb t s
  | None => false
  end.

(** The events appended to the trace between [w] and a later [w']. *)
Definition events_between (w w' : World) : list Event :=
  drop (length (trace w)) (trace w').

(** The events a computation appends to the trace when run from [w]. *)
Definition events_of {A} (m : M A) (w : World) : list Event :=
  events_between w (snd (m w)).

(** The row after [UPDATE trades SET status = 'Closed']. *)
Definition closed (t : Trade) : Trade :=
  mkTrade (trade_symbol t) (trade_side t) (trade_qty t) (trade_price t)
          "Closed".

Section Program.

Variable env : Env.

(** *** Collaborators *)

Definition bybit_orderCreate (symbol : option string) (side : string) (qty : Z)
  : M Order :=
  fun w =>
    let reply := orderCreate_reply env (order_calls w) symbol side qty in
    let w1 := mkWorld (trades w) (sqlite_sequence w) (S (order_calls w))
                      (position_calls w) (db_calls w) (telegram_calls w)
                      (trace w ++ [Ev_orderCreate symbol side qty reply]) in
    match reply with
    | inr order => (Return order, w1)
    | inl e => (Throw e, w1)
    end.

Definition bybit_positionList : M (list Position) :=
  fun w =>
    let reply := positionList_reply env (position_calls w) in
    let w1 := mkWorld (trades w) (sqlite_sequence w) (order_calls w)
                      (S (position_calls w)) (db_calls w) (telegram_calls w)
                      (trace w ++ [Ev_positionList reply]) in
    match reply with
    | inr positions => (Return positions, w1)
    | inl e => (Throw e, w1)
    end.

(** What a statement does to the table when SQLite reports no error.
    INSERT takes the next AUTOINCREMENT id and the default status 'Open';
    UPDATE rewrites the status of the row with that id, if there is one. *)
Definition sql_apply (stmt : Sql) (w : World) : gmap Z Trade * Z :=
  match stmt with
  | InsertInto symbol side qty price =>
      let id := sqlite_sequence w + 1 in
      (<[id := mkTrade symbol side qty price "Open"]> (trades w), id)
  | UpdateClosed id =>
      (alter closed id (trades w), sqlite_sequence w)
  end.

(** [db.run(sql, params, callback)]: the callback's [err]. *)
Definition db_run (stmt : Sql) : M (option string) :=
  fun w =>
    let err := db_error env (db_calls w) in
    let '(t, s) := match err with
                   | None => sql_apply stmt w
                   | Some _ => (trades w, sqlite_sequence w)
                   end in
    (Return err,
     mkWorld t s (order_calls w) (position_calls w) (S (db_calls w))
             (telegram_calls w) (trace w ++ [Ev_dbRun stmt err])).

(** [db.get('SELECT * FROM trades WHERE id = ?', [id], callback)]:
    the callback's [(err, row)]. *)
Definition db_get (id : Z) : M (option string * option Trade) :=
  fun w =>
    let err := db_error env (db_calls w) in
    let row := match err with None => trades w !! id | Some _ => None end in
    (Return (err, row),
     mkWorld (trades w) (sqlite_sequence w) (order_calls w) (position_calls w)
             (S (db_calls w)) (telegram_calls w)
             (trace w ++ [Ev_dbGet id err row])).

(** Lines 213-219. *)
Definition sendTelegramMessage (message : LogLine) : M unit :=
  fun w =>
    let err := telegram_error env (telegram_calls w) in
    let w1 := mkWorld (trades w) (sqlite_sequence w) (order_calls w)
                      (position_calls w) (db_calls w) (S (telegram_calls w))
                      (trace w ++ [Ev_telegram message err]) in
    match err with
    | None => (Return tt, w1)
    | Some e => log PinoError (TelegramFailure e) w1
    end.

(** *** Trade table (lines 37-79) *)

Definition insertTrade (symbol : option string) (side : string) (qty price : Z)
  : M unit :=
  err <- db_run (InsertInto symbol side qty price) ;;
  match err with
  | Some m => log ConsoleError (ErrorInsertingTrade m)
  | None => log ConsoleLog TradeInserted
  end.

Definition updateTradeStatus (id : Z) : M unit :=
  err <- db_run (UpdateClosed id) ;;
  match err with
  | Some m => log ConsoleError (ErrorUpdatingStatus m)
  | None => log ConsoleLog TradeStatusUpdated
  end.

(** Line 73 on the integer abstraction of numbers;
    [Binary64.calculateProfitLoss] has the arithmetic as JavaScript rounds
    it. *)
Definition profit_loss (row : Trade) (sellPrice : Z) : Z :=
  if String.eqb (trade_side row) "Buy"
  then (sellPrice - trade_price row) * trade_qty row
  else (trade_price row - sellPrice) * trade_qty row.

Definition calculateProfitLoss (id sellPrice : Z) : M Z :=
  emit (Ev_calculateProfitLoss id sellPrice) ;;
  r <- db_get id ;;
  match r with
  | (Some m, _) => throw (mkError SqliteError m)
  | (None, None) => throw (mkError PlainError "Trade not found in database.")
  | (None, Some row) => ret (profit_loss row sellPrice)
  end.

(** *** Orders (lines 82-134) *)

Definition placeOrder (symbol : option string) (side : string) (qty : Z)
  : M Order :=
  try_catch
    (order <- bybit_orderCreate symbol side qty ;;
     log PinoInfo (OrderPlaced side qty symbol) ;;
     insertTrade symbol side qty (order_price order) ;;
     ret order)
    (fun error =>
       log PinoError (ErrorPlacingOrder (err_message error)) ;;
       sendTelegramMessage (ErrorPlacingOrder (err_message error)) ;;
       throw error).

(** The body of the loop at lines 108-126. *)
Definition closePosition (position : Position) : M unit :=
  let id := pos_id position in
  let symbol := pos_symbol position in
  let side := pos_side position in
  let size := pos_size position in
  let entry_price := pos_entry_price position in
  if String.eqb side "Buy" then
    placeOrder (Some symbol) "Sell" size ;;
    ret tt
  else if String.eqb side "Sell" then
    placeOrder (Some symbol) "Buy" size ;;
    profitLoss <- calculateProfitLoss id entry_price ;;
    log ConsoleLog (TradeProfitLoss id profitLoss)
  else ret tt.

Definition closeAllPositions : M unit :=
  try_catch
    (positions <- bybit_positionList ;;
     for_of positions closePosition ;;
     log PinoInfo AllPositionsClosed)
    (fun error =>
       log PinoError (ErrorClosingPositions (err_message error)) ;;
       sendTelegramMessage (ErrorClosingPositions (err_message error)) ;;
       throw error).

(** *** Webhook (lines 150-179) *)

Definition sendStatus (code : nat) : M unit := emit (Ev_sendStatus code).

(** [data.data], whose properties are read next: a TypeError when undefined. *)
Definition signal_of (data : Body) : M Signal :=
  match body_data data with
  | Some signal => ret signal
  | None =>
      throw (mkError TypeError "Cannot read properties of undefined")
  end.

Definition handleTradingViewWebhook (data : Body) : M unit :=
  try_catch
    (if js_eq (body_topic data) "notification.create" then
       signal <- signal_of data ;;
       let symbol := sig_symbol signal in
       let side :=
         if js_eq (sig_recommendation signal) "BUY" then "Buy" else "Sell" in
       (if String.eqb side "Buy" then
          let orderQuantity := ORDER_QUANTITY env in
          placeOrder symbol side orderQuantity ;;
          ret tt
        else if String.eqb side "Sell" then
          closeAllPositions
        else ret tt) ;;
       sendStatus 200
     else
       log PinoWarn (UnexpectedTopic (body_topic data)) ;;
       sendStatus 400)
    (fun error =>
       log PinoError (ErrorProcessingWebhook (err_message error)) ;;
       sendStatus 500).

(** The positions the exchange reports at the next [positionList] call. *)
Definition listed (w : World) : list Position :=
  match positionList_reply env (position_calls w) with
  | inr ps => ps
  | inl _ => []
  end.

(** The state of the running server after a sequence of webhook deliveries.
    [app.post('/webhook', ...)] is the only entry point that touches the
    table or the exchange. *)
Definition deliveries (reqs : list Body) (w : World) : World :=
  fold_left (fun w data => snd (handleTradingViewWebhook data w)) reqs w.

Definition serve (reqs : list Body) : World := deliveries reqs initial_world.

End Program.

(** ** Reading a trace *)

Definition is_orderCreate (e : Event) : bool :=
  match e with Ev_orderCreate _ _ _ _ => true | _ => false end.

(** Orders the exchange confirmed: (symbol, side, qty). *)
Definition filled (e : Event) : option (option string * string * Z) :=
  match e with
  | Ev_orderCreate symbol side qty (inr _) => Some (symbol, side, qty)
  | _ => None
  end.

Definition orders_placed (evs : list Event) : list (option string * string * Z) :=
  omap filled evs.

(** How many events of a kind a trace holds. *)
Definition count_if (f : Event -> bool) (evs : list Event) : nat :=
  length (List.filter f evs).

Definition is_ledger_write (e : Event) : bool :=
  match e with Ev_dbRun _ _ => true | _ => false end.

Definition is_update (e : Event) : bool :=
  match e with Ev_dbRun (UpdateClosed _) _ => true | _ => false end.

Definition is_telegram (e : Event) : bool :=
  match e with Ev_telegram _ _ => true | _ => false end.

Definition is_profitLoss_call (e : Event) : bool :=
  match e with Ev_calculateProfitLoss _ _ => true | _ => false end.

Definition status_sent (evs : list Event) : list nat :=
  omap (fun e => match e with Ev_sendStatus c => Some c | _ => None end) evs.

Definition all_open (t : gmap Z Trade) : Prop :=
  map_Forall (fun _ row => trade_status row = "Open") t.

(** The offsetting order of a position: opposite side, equal size. *)
Definition close_order (p : Position) : option string * string * Z :=
  (Some (pos_symbol p),
   if String.eqb (pos_side p) "Buy" then "Sell" else "Buy",
   pos_size p).

(** ** Reasoning about computations *)

(** [w'] continues [w]: the trace grew by events that satisfy [Q], no row was
    dropped, and rows stay 'Open' if they all were. *)
Definition continues (Q : Event -> Prop) (w w' : World) : Prop :=
  (exists evs, trace w' = trace w ++ evs /\ Forall Q evs) /\
  (all_open (trades w) -> all_open (trades w')) /\
  (forall id, is_Some (trades w !! id) -> is_Some (trades w' !! id)).

Definition respects {A} (Q : Event -> Prop) (m : M A) : Prop :=
  forall w, continues Q w (snd (m w)).

(** The events [placeOrder] can emit. *)
Definition placeOrder_event (e : Event) : Prop :=
  match e with
  | Ev_orderCreate _ _ _ _ => True
  | Ev_log _ _ => True
  | Ev_telegram _ _ => True
  | Ev_dbRun (InsertInto _ _ _ _) _ => True
  | _ => False
  end.

(** The events [closeAllPositions] can emit when the exchange lists [ps]. *)
Definition closeAll_event (ps : list Position) (e : Event) : Prop :=
  match e with
  | Ev_calculateProfitLoss id sellPrice =>
      exists p, p ∈ ps /\ pos_side p = "Sell" /\
                pos_id p = id /\ pos_entry_price p = sellPrice
  | Ev_dbRun (UpdateClosed _) _ => False
  | Ev_sendStatus _ => False
  | _ => True
  end.

(** The events a webhook delivery can emit. *)
Definition webhook_event (e : Event) : Prop :=
  match e with
  | Ev_dbRun (UpdateClosed _) _ => False
  | _ => True
  end.

(** What [placeOrder] appends to the trace when the exchange confirms. *)
Definition placeOrder_filled_events (symbol : option string) (side : string)
    (qty : Z) (order : Order) (err : option string) : list Event :=
  [Ev_orderCreate symbol side qty (inr order);
   Ev_log PinoInfo (OrderPlaced side qty symbol);
   Ev_dbRun (InsertInto symbol side qty (order_price order)) err;
   match err with
   | Some m => Ev_log ConsoleError (ErrorInsertingTrade m)
   | None => Ev_log ConsoleLog TradeInserted
   end].

(** What [placeOrder] appends to the trace when the exchange fails. *)
Definition placeOrder_failed_events (symbol : option string) (side : string)
    (qty : Z) (e : JsError) (terr : option JsError) : list Event :=
  [Ev_orderCreate symbol side qty (inl e);
   Ev_log PinoError (ErrorPlacingOrder (err_message e));
   Ev_telegram (ErrorPlacingOrder (err_message e)) terr] ++
  match terr with
  | Some te => [Ev_log PinoError (TelegramFailure te)]
  | None => []
  end.

(** The tail of the webhook handler around a dispatched operation:
    200 when it returns, the catch block's 500 when it throws. *)
Definition respond {A} (operation : M A) : M unit :=
  try_catch
    (operation ;; sendStatus 200)
    (fun error =>
       log PinoError (ErrorProcessingWebhook (err_message error)) ;;
       sendStatus 500).

(** The exchange confirms every order it is sent. *)
Definition exchange_fills (env : Env) : Prop :=
  forall n symbol side qty,
    exists order, orderCreate_reply env n symbol side qty = inr order.

(** SQLite never reports an error. *)
Definition db_healthy (env : Env) : Prop :=
  forall n, db_error env n = None.

(** What [updateTradeStatus] appends to the trace. *)
Definition updateTradeStatus_events (id : Z) (err : option string)
  : list Event :=
  [Ev_dbRun (UpdateClosed id) err;
   match err with
   | Some m => Ev_log ConsoleError (ErrorUpdatingStatus m)
   | None => Ev_log ConsoleLog TradeStatusUpdated
   end].

(** ** Scenarios *)

(** A webhook body with the recognized topic. *)
Definition notification (symbol recommendation : string) : Body :=
  mkBody (Some "notification.create")
         (Some (mkSignal (Some symbol) (Some recommendation))).

(** The exchange fills every order at [price] and lists [ps]; SQLite and
    Telegram work; ORDER_QUANTITY=1. *)
Definition env_fills (price : Z) (ps : list Position) : Env :=
  mkEnv (fun _ _ _ _ => inr (mkOrder price)) (fun _ => inr ps)
        (fun _ => None) (fun _ => None) 1.

(** As [env_fills 100 []], but every SQLite statement fails. *)
Definition env_db_down : Env :=
  mkEnv (fun _ _ _ _ => inr (mkOrder 100)) (fun _ => inr [])
        (fun _ => Some "SQLITE_IOERR: disk I/O error") (fun _ => None) 1.

(** The first order times out; any later order would be filled at 100. *)
Definition env_timeout_once : Env :=
  mkEnv (fun n _ _ _ =>
           match n with
           | O => inl (mkError Transport "ETIMEDOUT")
           | S _ => inr (mkOrder 100)
           end)
        (fun _ => inr []) (fun _ => None) (fun _ => None) 1.

(** The exchange rejects every order. *)
Definition env_rejects (ps : list Position) : Env :=
  mkEnv (fun _ _ _ _ => inl (mkError Rejection "insufficient margin"))
        (fun _ => inr ps) (fun _ => None) (fun _ => None) 1.

(** The table after one recorded trade, which gets id 1. *)
Definition ledger_with (side : string) (qty price : Z) : World :=
  snd (insertTrade (env_fills price []) (Some "BTCUSD") side qty price
         initial_world).

Definition two_positions : list Position :=
  [mkPosition 1 "BTCUSD" "Buy" 1 100; mkPosition 2 "ETHUSD" "Sell" 2 50].

(** ** Further readings of traces and states *)

Definition is_insert (e : Event) : bool :=
  match e with Ev_dbRun (InsertInto _ _ _ _) _ => true | _ => false end.

(** An INSERT that SQLite accepted. *)
Definition is_insert_ok (e : Event) : bool :=
  match e with Ev_dbRun (InsertInto _ _ _ _) None => true | _ => false end.

Definition is_positionList (e : Event) : bool :=
  match e with Ev_positionList _ => true | _ => false end.

(** Orders sent to the exchange, whatever it answered: (symbol, side, qty). *)
Definition attempted (e : Event) : option (option string * string * Z) :=
  match e with
  | Ev_orderCreate symbol side qty _ => Some (symbol, side, qty)
  | _ => None
  end.

Definition orders_sent (evs : list Event) : list (option string * string * Z) :=
  omap attempted evs.

(** The positions the loop of [closeAllPositions] acts on: the two branches
    of its [if]/[else if]. *)
Definition tradable (p : Position) : bool :=
  String.eqb (pos_side p) "Buy" || String.eqb (pos_side p) "Sell".

Definition close_orders (ps : list Position)
  : list (option string * string * Z) :=
  map close_order (List.filter tradable ps).

(** The ids in use are exactly 1 .. sqlite_sequence. *)
Definition dense (w : World) : Prop :=
  0 <= sqlite_sequence w /\
  forall id, is_Some (trades w !! id) <-> 1 <= id <= sqlite_sequence w.

(** [w'] is [w] after whole operations: every INSERT issued in between
    belongs to one confirmed order, the AUTOINCREMENT counter advanced by the
    number of accepted INSERTs, and the rows of a dense table were kept as
    they are. *)
Definition grows (w w' : World) : Prop :=
  exists evs,
    trace w' = trace w ++ evs /\
    count_if is_insert evs = length (orders_placed evs) /\
    sqlite_sequence w' = sqlite_sequence w + Z.of_nat (count_if is_insert_ok evs) /\
    (dense w -> dense w' /\ trades w ⊆ trades w').

Definition keeps {A} (R : World -> World -> Prop) (m : M A) : Prop :=
  forall w, R w (snd (m w)).

(** Events that are neither a confirmed order nor an INSERT. *)
Definition silent (e : Event) : Prop :=
  is_insert e = false /\ filled e = None.

(** Events that are neither an order request nor a Telegram message. *)
Definition quiet (e : Event) : Prop :=
  is_telegram e = false /\ attempted e = None.

(** Events other than a Telegram call and the log line of its failure. *)
Definition not_telegram (e : Event) : bool :=
  match e with
  | Ev_telegram _ _ => false
  | Ev_log _ (TelegramFailure _) => false
  | _ => true
  end.

(** Two environments that differ at most in what Telegram answers. *)
Definition same_but_telegram (env1 env2 : Env) : Prop :=
  (forall n symbol side qty,
     orderCreate_reply env1 n symbol side qty
     = orderCreate_reply env2 n symbol side qty) /\
  (forall n, positionList_reply env1 n = positionList_reply env2 n) /\
  (forall n, db_error env1 n = db_error env2 n) /\
  ORDER_QUANTITY env1 = ORDER_QUANTITY env2.

(** Two worlds that differ at most in Telegram events. *)
Definition alike (w1 w2 : World) : Prop :=
  trades w1 = trades w2 /\
  sqlite_sequence w1 = sqlite_sequence w2 /\
  order_calls w1 = order_calls w2 /\
  position_calls w1 = position_calls w2 /\
  db_calls w1 = db_calls w2 /\
  telegram_calls w1 = telegram_calls w2 /\
  List.filter not_telegram (trace w1) = List.filter not_telegram (trace w2).

(** Two computations that agree on alike worlds. *)
Definition agree {A} (m1 m2 : M A) : Prop :=
  forall w1 w2, alike w1 w2 ->
    fst (m1 w1) = fst (m2 w2) /\ alike (snd (m1 w1)) (snd (m2 w2)).

(** As [env_rejects ps], but Telegram fails every message too. *)
Definition env_rejects_telegram_down (ps : list Position) : Env :=
  mkEnv (fun _ _ _ _ => inl (mkError Rejection "insufficient margin"))
        (fun _ => inr ps) (fun _ => None)
        (fun _ => Some (mkError Transport "ETELEGRAM")) 1.

(** ** Line 73 in JavaScript's own arithmetic *)

(** JavaScript numbers are IEEE 754 binary64 values; [SpecFloat] gives their
    operations, each rounded to nearest, ties to even. This module embeds
    [calculateProfitLoss] (lines 59-79) over them: [err] and [table] stand
    for what [db.get] hands to its callback, and a [Row] holds the three
    columns that lines 68-72 read. *)
Module Binary64.

Definition prec : Z := 53.
Definition emax : Z := 1024.

Definition number : Type := spec_float.

Definition sub (a b : number) : number := SFsub prec emax a b.
Definition mul (a b : number) : number := SFmul prec emax a b.
Definition div (a b : number) : number := SFdiv prec emax a b.

(** The number an integer literal denotes. *)
Definition of_Z (z : Z) : number := binary_normalize prec emax z 0 false.

(** The number a decimal literal with the value n/d denotes, for n and d
    below 2^53: the binary64 nearest to n/d. *)
Definition of_ratio (n d : Z) : number := div (of_Z n) (of_Z d).

(** The exact value of a number, when it is an integer. *)
Definition to_Z (x : number) : option Z :=
  match x with
  | S754_zero _ => Some 0
  | S754_finite s m e =>
      if 0 <=? e then Some (cond_Zopp s (Zpos m) * 2 ^ e)
      else if Zpos m mod 2 ^ (- e) =? 0
           then Some (cond_Zopp s (Zpos m / 2 ^ (- e)))
           else None
  | _ => None
  end.

Record Row := mkRow { side : string; qty : number; price : number }.

Definition calculateProfitLoss (err : option string) (table : gmap Z Row)
    (id : Z) (sellPrice : number) : Completion number :=
  match err with
  | Some m => Throw (mkError SqliteError m)
  | None =>
      match table !! id with
      | None => Throw (mkError PlainError "Trade not found in database.")
      | Some row =>
          let profitLoss :=
            if String.eqb (side row) "Buy"
            then mul (sub sellPrice (price row)) (qty row)
            else mul (sub (price row) sellPrice) (qty row) in
          Return profitLoss
      end
  end.

(** The integer the promise resolves to, if it does. *)
Definition resolved_Z (c : Completion number) : option Z :=
  match c with
  | Return x => to_Z x
  | Throw _ => None
  end.

End Binary64.

(** What the Sell branch of the loop does after its close order, for the
    row [db.get] returned: the call, the SELECT, the logged result. *)
Definition profitLoss_steps (p : Position) (row : Trade) : list Event :=
  [Ev_calculateProfitLoss (pos_id p) (pos_entry_price p);
   Ev_dbGet (pos_id p) None (Some row);
   Ev_log ConsoleLog
     (TradeProfitLoss (pos_id p) (profit_loss row (pos_entry_price p)))].

(** The rows of [w0] are still there, unchanged, in a dense [w]. *)
Definition kept (w0 w : World) : Prop := dense w /\ trades w0 ⊆ trades w.

(** An order request that the exchange did not confirm. *)
Definition is_order_failure (e : Event) : bool :=
  match e with Ev_orderCreate _ _ _ (inl _) => true | _ => false end.

(** Between [w] and [w'] there was one Telegram message per failed order
    request: what [placeOrder]'s catch block sends. *)
Definition notified (w w' : World) : Prop :=
  exists evs,
    trace w' = trace w ++ evs /\
    count_if is_telegram evs = count_if is_order_failure evs.

(** The handler on the request as Express passes it (lines 150-154):
    [req.body] is an object when a body was parsed, and undefined ([None])
    otherwise; reading [data.topic] then throws inside the [try], and the
    catch block answers. *)
Definition handleRequest (env : Env) (body : option Body) : M unit :=
  match body with
  | Some data => handleTradingViewWebhook env data
  | None =>
      try_catch
        (throw (mkError TypeError "Cannot read properties of undefined"))
        (fun error =>
           log PinoError (ErrorProcessingWebhook (err_message error)) ;;
           sendStatus 500)
  end.

(** ** Composition lemmas *)

Lemma continues_refl Q w : continues Q w w.
Proof.
  split; [exists []; split; [by rewrite app_nil_r | constructor] | tauto].
Qed.

Lemma continues_trans Q a b c :
  continues Q a b -> continues Q b c -> continues Q a c.
Proof.
  intros [(e1 & T1 & F1) [O1 D1]] [(e2 & T2 & F2) [O2 D2]].
  split; [| split; auto].
  exists (e1 ++ e2). split.
  - by rewrite T2, T1, app_assoc.
  - by apply Forall_app.
Qed.

Lemma continues_weaken (Q Q' : Event -> Prop) w w' :
  (forall e, Q e -> Q' e) -> continues Q w w' -> continues Q' w w'.
Proof.
  intros HQ [(evs & T & F) R]. split; [| exact R].
  exists evs. split; [exact T | eapply Forall_impl; eauto].
Qed.

Lemma respects_weaken {A} (Q Q' : Event -> Prop) (m : M A) :
  (forall e, Q e -> Q' e) -> respects Q m -> respects Q' m.
Proof. intros HQ H w. eapply continues_weaken; eauto. Qed.

Lemma respects_ret {A} Q (a : A) : respects Q (ret a).
Proof. intros w. apply continues_refl. Qed.

Lemma respects_throw {A} Q e : respects Q (@throw A e).
Proof. intros w. apply continues_refl. Qed.

Lemma respects_bind {A B} Q (m : M A) (k : A -> M B) :
  respects Q m -> (forall a, respects Q (k a)) -> respects Q (bind m k).
Proof.
  intros Hm Hk w. unfold bind. specialize (Hm w).
  destruct (m w) as [[a | e] w1]; simpl in *; [| exact Hm].
  eapply continues_trans; [exact Hm | apply Hk].
Qed.

Lemma respects_try_catch {A} Q (body : M A) (handler : JsError -> M A) :
  respects Q body -> (forall e, respects Q (handler e)) ->
  respects Q (try_catch body handler).
Proof.
  intros Hb Hh w. unfold try_catch. specialize (Hb w).
  destruct (body w) as [[a | e] w1]; simpl in *; [exact Hb |].
  eapply continues_trans; [exact Hb | apply Hh].
Qed.

Lemma respects_for_of {A} Q (xs : list A) (body : A -> M unit) :
  (forall x, x ∈ xs -> respects Q (body x)) -> respects Q (for_of xs body).
Proof.
  induction xs as [| x rest IH]; intros H; simpl.
  - apply respects_ret.
  - apply respects_bind.
    + apply H. by left.
    + intros _. apply IH. intros y Hy. apply H. by right.
Qed.

Lemma respects_emit Q e : Q e -> respects Q (emit e).
Proof.
  intros He w. split; [| tauto].
  exists [e]. split; [reflexivity | by repeat constructor].
Qed.

(** A step that appends one event and leaves the table alone. *)
Lemma continues_one Q w w' e :
  trace w' = trace w ++ [e] -> trades w' = trades w -> Q e ->
  continues Q w w'.
Proof.
  intros T D He. split; [| rewrite D; tauto].
  exists [e]. split; [exact T | by repeat constructor].
Qed.

Section ProgramFacts.

Variable env : Env.

Lemma respects_orderCreate Q symbol side qty :
  (forall r, Q (Ev_orderCreate symbol side qty r)) ->
  respects Q (bybit_orderCreate env symbol side qty).
Proof.
  intros HQ w. unfold bybit_orderCreate.
  destruct (orderCreate_reply env (order_calls w) symbol side qty);
    eapply continues_one; simpl; eauto.
Qed.

Lemma respects_positionList Q :
  (forall r, Q (Ev_positionList r)) -> respects Q (bybit_positionList env).
Proof.
  intros HQ w. unfold bybit_positionList.
  destruct (positionList_reply env (position_calls w));
    eapply continues_one; simpl; eauto.
Qed.

Lemma respects_db_get Q id :
  (forall err row, Q (Ev_dbGet id err row)) -> respects Q (db_get env id).
Proof. intros HQ w. eapply continues_one; simpl; eauto. Qed.

Lemma respects_db_insert Q symbol side qty price :
  (forall err, Q (Ev_dbRun (InsertInto symbol side qty price) err)) ->
  respects Q (db_run env (InsertInto symbol side qty price)).
Proof.
  intros HQ w. unfold db_run.
  destruct (db_error env (db_calls w)) as [m |] eqn:E; simpl.
  - eapply continues_one; simpl; eauto.
  - split; [| split]; simpl.
    + eexists. split; [reflexivity | by repeat constructor].
    + intros H. by apply map_Forall_insert_2.
    + intros id H. rewrite lookup_insert. case_decide; [by eexists | done].
Qed.

Lemma respects_sendTelegramMessage Q message :
  (forall err, Q (Ev_telegram message err)) ->
  (forall lvl line, Q (Ev_log lvl line)) ->
  respects Q (sendTelegramMessage env message).
Proof.
  intros HT HL w. unfold sendTelegramMessage.
  destruct (telegram_error env (telegram_calls w)) as [e |].
  - eapply continues_trans; [| apply respects_emit, HL].
    eapply continues_one; simpl; eauto.
  - eapply continues_one; simpl; eauto.
Qed.

Lemma respects_log Q lvl line : Q (Ev_log lvl line) -> respects Q (log lvl line).
Proof. apply respects_emit. Qed.

Lemma respects_insertTrade symbol side qty price :
  respects placeOrder_event (insertTrade env symbol side qty price).
Proof.
  apply respects_bind; [by apply respects_db_insert |].
  intros [m |]; by apply respects_log.
Qed.

Lemma respects_placeOrder symbol side qty :
  respects placeOrder_event (placeOrder env symbol side qty).
Proof.
  apply respects_try_catch.
  - apply respects_bind; [by apply respects_orderCreate |]. intros order.
    apply respects_bind; [by apply respects_log |]. intros _.
    apply respects_bind; [apply respects_insertTrade |]. intros _.
    apply respects_ret.
  - intros e.
    apply respects_bind; [by apply respects_log |]. intros _.
    apply respects_bind; [by apply respects_sendTelegramMessage |]. intros _.
    apply respects_throw.
Qed.

Lemma respects_calculateProfitLoss Q id sellPrice :
  Q (Ev_calculateProfitLoss id sellPrice) ->
  (forall err row, Q (Ev_dbGet id err row)) ->
  respects Q (calculateProfitLoss env id sellPrice).
Proof.
  intros H1 H2.
  apply respects_bind; [by apply respects_emit |]. intros _.
  apply respects_bind; [by apply respects_db_get |].
  intros [[m |] [row |]];
    first [apply respects_throw | apply respects_ret].
Qed.

Lemma placeOrder_event_closeAll ps e :
  placeOrder_event e -> closeAll_event ps e.
Proof. destruct e as [| | [] | | | | |]; simpl; tauto. Qed.

Lemma respects_closePosition ps p :
  p ∈ ps -> respects (closeAll_event ps) (closePosition env p).
Proof.
  intros Hp. unfold closePosition.
  destruct (String.eqb (pos_side p) "Buy") eqn:EB.
  - apply respects_bind; [| intros; apply respects_ret].
    eapply respects_weaken;
      [apply placeOrder_event_closeAll | apply respects_placeOrder].
  - destruct (String.eqb (pos_side p) "Sell") eqn:ES; [| apply respects_ret].
    apply String.eqb_eq in ES.
    apply respects_bind.
    { eapply respects_weaken;
        [apply placeOrder_event_closeAll | apply respects_placeOrder]. }
    intros _. apply respects_bind.
    + apply respects_calculateProfitLoss; simpl; eauto 6.
    + intros v. by apply respects_log.
Qed.

Lemma respects_close_loop ps :
  respects (closeAll_event ps)
    (for_of ps (closePosition env) ;; log PinoInfo AllPositionsClosed).
Proof.
  apply respects_bind; [| intros; by apply respects_log].
  apply respects_for_of. intros p Hp. by apply respects_closePosition.
Qed.

Lemma respects_closeAll_catch ps e :
  respects (closeAll_event ps)
    (log PinoError (ErrorClosingPositions (err_message e)) ;;
     sendTelegramMessage env (ErrorClosingPositions (err_message e)) ;;
     @throw unit e).
Proof.
  apply respects_bind; [by apply respects_log |]. intros _.
  apply respects_bind; [by apply respects_sendTelegramMessage |]. intros _.
  apply respects_throw.
Qed.

(** [closeAllPositions] first lists the positions; what follows continues
    the world reached by that call. *)
Lemma closeAllPositions_after_list w :
  let reply := positionList_reply env (position_calls w) in
  let w1 := mkWorld (trades w) (sqlite_sequence w) (order_calls w)
                    (S (position_calls w)) (db_calls w) (telegram_calls w)
                    (trace w ++ [Ev_positionList reply]) in
  continues (closeAll_event (listed env w)) w1
            (snd (closeAllPositions env w)).
Proof.
  intros reply w1.
  unfold closeAllPositions, try_catch, bind at 1, bybit_positionList.
  fold reply. fold w1. unfold listed. fold reply.
  destruct reply as [e | ps].
  - apply respects_closeAll_catch.
  - pose proof (respects_close_loop ps w1) as C.
    destruct ((for_of ps (closePosition env) ;;
               log PinoInfo AllPositionsClosed) w1) as [[[] | e] w2];
      simpl in *; [exact C |].
    eapply continues_trans; [exact C | apply respects_closeAll_catch].
Qed.

Lemma continues_closeAllPositions w :
  continues (closeAll_event (listed env w)) w (snd (closeAllPositions env w)).
Proof.
  eapply continues_trans; [| apply closeAllPositions_after_list].
  eapply continues_one; [reflexivity | reflexivity | exact I].
Qed.

Lemma closeAll_event_webhook ps e : closeAll_event ps e -> webhook_event e.
Proof. destruct e as [| | [] | | | | |]; simpl; tauto. Qed.

Lemma respects_closeAllPositions_webhook :
  respects webhook_event (closeAllPositions env).
Proof.
  intros w. eapply continues_weaken;
    [apply closeAll_event_webhook | apply continues_closeAllPositions].
Qed.

Lemma respects_handleTradingViewWebhook data :
  respects webhook_event (handleTradingViewWebhook env data).
Proof.
  apply respects_try_catch.
  - destruct (js_eq (body_topic data) "notification.create").
    + apply respects_bind.
      { unfold signal_of. destruct (body_data data);
          [apply respects_ret | apply respects_throw]. }
      intros signal. apply respects_bind; [| intros; by apply respects_emit].
      destruct (String.eqb _ "Buy").
      * apply respects_bind; [| intros; apply respects_ret].
        eapply respects_weaken; [| apply respects_placeOrder].
        intros [| | [] | | | | |]; simpl; tauto.
      * destruct (String.eqb _ "Sell"); [| apply respects_ret].
        apply respects_closeAllPositions_webhook.
    + apply respects_bind; [by apply respects_log |].
      intros _. by apply respects_emit.
  - intros e. apply respects_bind; [by apply respects_log |].
    intros _. by apply respects_emit.
Qed.

Lemma continues_deliveries reqs w :
  continues webhook_event w (deliveries env reqs w).
Proof.
  revert w. induction reqs as [| data reqs IH]; intros w; simpl.
  - apply continues_refl.
  - eapply continues_trans; [apply respects_handleTradingViewWebhook | apply IH].
Qed.

End ProgramFacts.

(** ** Runs of the program's functions *)

Lemma events_between_app w w' evs :
  trace w' = trace w ++ evs -> events_between w w' = evs.
Proof. intros H. unfold events_between. rewrite H. apply drop_app_length. Qed.

Lemma orders_placed_app e1 e2 :
  orders_placed (e1 ++ e2) = orders_placed e1 ++ orders_placed e2.
Proof. apply omap_app. Qed.

Lemma status_sent_app e1 e2 :
  status_sent (e1 ++ e2) = status_sent e1 ++ status_sent e2.
Proof. apply omap_app. Qed.

Lemma count_if_app f e1 e2 :
  count_if f (e1 ++ e2) = (count_if f e1 + count_if f e2)%nat.
Proof. unfold count_if. by rewrite List.filter_app, length_app. Qed.

Section Runs.

Variable env : Env.

Lemma placeOrder_filled symbol side qty w order :
  orderCreate_reply env (order_calls w) symbol side qty = inr order ->
  exists w',
    placeOrder env symbol side qty w = (Return order, w') /\
    trace w' = trace w ++ placeOrder_filled_events symbol side qty order
                            (db_error env (db_calls w)) /\
    trades w' = match db_error env (db_calls w) with
                | None => <[sqlite_sequence w + 1 :=
                            mkTrade symbol side qty (order_price order) "Open"]>
                            (trades w)
                | Some _ => trades w
                end /\
    order_calls w' = S (order_calls w) /\
    position_calls w' = position_calls w /\
    db_calls w' = S (db_calls w) /\
    telegram_calls w' = telegram_calls w.
Proof.
  intros H.
  unfold placeOrder, try_catch, bind, bybit_orderCreate, insertTrade, bind, db_run.
  rewrite H. simpl.
  destruct (db_error env (db_calls w)) as [m |]; simpl;
    eexists; (split; [reflexivity |]); simpl;
    rewrite <- !app_assoc; simpl; auto 10.
Qed.

Lemma placeOrder_failed symbol side qty w e :
  orderCreate_reply env (order_calls w) symbol side qty = inl e ->
  exists w',
    placeOrder env symbol side qty w = (Throw e, w') /\
    trace w' = trace w ++ placeOrder_failed_events symbol side qty e
                            (telegram_error env (telegram_calls w)) /\
    trades w' = trades w /\
    sqlite_sequence w' = sqlite_sequence w /\
    order_calls w' = S (order_calls w) /\
    db_calls w' = db_calls w.
Proof.
  intros H.
  unfold placeOrder, try_catch, bind, bybit_orderCreate, sendTelegramMessage.
  rewrite H. simpl.
  destruct (telegram_error env (telegram_calls w)) as [te |]; simpl;
    eexists; (split; [reflexivity |]); simpl;
    rewrite <- !app_assoc; simpl; auto 10.
Qed.

Lemma calculateProfitLoss_found id sellPrice w row :
  db_error env (db_calls w) = None ->
  trades w !! id = Some row ->
  exists w',
    calculateProfitLoss env id sellPrice w
      = (Return (profit_loss row sellPrice), w') /\
    trace w' = trace w ++ [Ev_calculateProfitLoss id sellPrice;
                           Ev_dbGet id None (Some row)] /\
    trades w' = trades w.
Proof.
  intros Hdb Hrow.
  unfold calculateProfitLoss, bind, emit, db_get. simpl.
  rewrite Hdb, Hrow. simpl.
  eexists. split; [reflexivity |]. simpl.
  by rewrite <- !app_assoc.
Qed.

Lemma respond_returns {A} (operation : M A) w a w1 :
  operation w = (Return a, w1) ->
  respond operation w = emit (Ev_sendStatus 200) w1.
Proof. intros H. unfold respond, try_catch, bind. by rewrite H. Qed.

Lemma respond_throws {A} (operation : M A) w e w1 :
  operation w = (Throw e, w1) ->
  respond operation w =
  (log PinoError (ErrorProcessingWebhook (err_message e)) ;;
   sendStatus 500) w1.
Proof. intros H. unfold respond, try_catch, bind. by rewrite H. Qed.

(** Dispatch of a recognized topic: 'BUY' goes to [placeOrder], any other
    recommendation to [closeAllPositions]. *)
Lemma webhook_buy data signal w :
  body_topic data = Some "notification.create" ->
  body_data data = Some signal ->
  sig_recommendation signal = Some "BUY" ->
  handleTradingViewWebhook env data w =
  respond (placeOrder env (sig_symbol signal) "Buy" (ORDER_QUANTITY env)) w.
Proof.
  intros Ht Hd Hr.
  unfold handleTradingViewWebhook, respond, signal_of, try_catch, bind, ret.
  rewrite Ht, Hd, Hr. simpl.
  by destruct (placeOrder env _ _ _ w) as [[o | e] w1].
Qed.

Lemma webhook_not_buy data signal w :
  body_topic data = Some "notification.create" ->
  body_data data = Some signal ->
  sig_recommendation signal <> Some "BUY" ->
  handleTradingViewWebhook env data w = respond (closeAllPositions env) w.
Proof.
  intros Ht Hd Hr.
  unfold handleTradingViewWebhook, respond, signal_of, try_catch, bind, ret.
  rewrite Ht, Hd. simpl.
  assert (E : js_eq (sig_recommendation signal) "BUY" = false).
  { destruct (sig_recommendation signal) as [r |]; [| done]. simpl.
    apply String.eqb_neq. congruence. }
  by rewrite E.
Qed.

Lemma updateTradeStatus_run id w :
  exists w',
    updateTradeStatus env id w = (Return tt, w') /\
    trace w' = trace w ++ updateTradeStatus_events id
                            (db_error env (db_calls w)) /\
    trades w' = match db_error env (db_calls w) with
                | None => alter closed id (trades w)
                | Some _ => trades w
                end /\
    db_calls w' = S (db_calls w).
Proof.
  unfold updateTradeStatus, bind, db_run, log, emit.
  destruct (db_error env (db_calls w)); simpl;
    eexists; (split; [reflexivity |]); simpl;
    by rewrite <- !app_assoc.
Qed.

End Runs.

Section Flatten.

Variable env : Env.

Lemma orders_placed_filled symbol side qty order err :
  orders_placed (placeOrder_filled_events symbol side qty order err)
  = [(symbol, side, qty)].
Proof. by destruct err. Qed.

Lemma closePosition_run p w :
  exchange_fills env -> db_healthy env ->
  pos_side p = "Buy" \/ pos_side p = "Sell" ->
  (pos_side p = "Sell" -> is_Some (trades w !! pos_id p)) ->
  exists w' evs,
    closePosition env p w = (Return tt, w') /\
    trace w' = trace w ++ evs /\
    orders_placed evs = [close_order p] /\
    (pos_side p = "Sell" ->
     exists v, Ev_log ConsoleLog (TradeProfitLoss (pos_id p) v) ∈ evs) /\
    (forall id, is_Some (trades w !! id) -> is_Some (trades w' !! id)).
Proof.
  intros Hf Hd Hs Hrow. unfold closePosition, close_order.
  destruct Hs as [Hs | Hs]; rewrite Hs; simpl.
  - destruct (Hf (order_calls w) (Some (pos_symbol p)) "Sell" (pos_size p))
      as [order Ho].
    destruct (placeOrder_filled env _ _ _ _ _ Ho)
      as (w1 & E & T & D & _).
    unfold bind. rewrite E. exists w1. eexists.
    split; [reflexivity |]. split; [exact T |].
    split; [apply orders_placed_filled |].
    split; [discriminate |].
    intros id H. rewrite D, Hd, lookup_insert. case_decide; [by eexists | done].
  - destruct (Hf (order_calls w) (Some (pos_symbol p)) "Buy" (pos_size p))
      as [order Ho].
    destruct (placeOrder_filled env _ _ _ _ _ Ho)
      as (w1 & E & T & D & _ & _ & C & _).
    assert (Hkeep : forall id, is_Some (trades w !! id) ->
                               is_Some (trades w1 !! id)).
    { intros id H. rewrite D, Hd, lookup_insert.
      case_decide; [by eexists | done]. }
    destruct (Hkeep _ (Hrow Hs)) as [row Hr].
    destruct (calculateProfitLoss_found env (pos_id p) (pos_entry_price p)
                w1 row (Hd _) Hr) as (w2 & E2 & T2 & D2).
    unfold bind. rewrite E, E2. simpl.
    eexists.
    exists (placeOrder_filled_events (Some (pos_symbol p)) "Buy" (pos_size p)
              order (db_error env (db_calls w)) ++
            [Ev_calculateProfitLoss (pos_id p) (pos_entry_price p);
             Ev_dbGet (pos_id p) None (Some row);
             Ev_log ConsoleLog
               (TradeProfitLoss (pos_id p)
                  (profit_loss row (pos_entry_price p)))]).
    split; [reflexivity |]. simpl.
    split; [rewrite T2, T, <- !app_assoc; reflexivity |].
    split; [by destruct (db_error env (db_calls w)) |].
    split.
    + intros _. eexists. apply (elem_of_app (placeOrder_filled_events _ _ _ _ _)). right.
      do 2 apply list_elem_of_further. apply list_elem_of_here.
    + intros id H. rewrite D2. by apply Hkeep.
Qed.

Lemma close_loop_run ps :
  exchange_fills env -> db_healthy env ->
  forall w,
  Forall (fun p => pos_side p = "Buy" \/ pos_side p = "Sell") ps ->
  Forall (fun p => pos_side p = "Sell" -> is_Some (trades w !! pos_id p)) ps ->
  exists w' evs,
    for_of ps (closePosition env) w = (Return tt, w') /\
    trace w' = trace w ++ evs /\
    orders_placed evs = map close_order ps /\
    (forall p, p ∈ ps -> pos_side p = "Sell" ->
     exists v, Ev_log ConsoleLog (TradeProfitLoss (pos_id p) v) ∈ evs).
Proof.
  intros Hf Hd. induction ps as [| p ps IH]; intros w Hs Hrow.
  - exists w, []. simpl. rewrite app_nil_r.
    repeat split; auto. intros p Hp. by apply elem_of_nil in Hp.
  - apply Forall_cons in Hs as [Hs1 Hs2].
    apply Forall_cons in Hrow as [Hr1 Hr2].
    destruct (closePosition_run p w Hf Hd Hs1 Hr1)
      as (w1 & e1 & E1 & T1 & O1 & P1 & K1).
    destruct (IH w1 Hs2) as (w2 & e2 & E2 & T2 & O2 & P2).
    { eapply Forall_impl; [exact Hr2 |]. simpl. auto. }
    exists w2, (e1 ++ e2). simpl. unfold bind. rewrite E1, E2.
    split; [reflexivity |].
    split; [by rewrite T2, T1, app_assoc |].
    split; [by rewrite orders_placed_app, O1, O2 |].
    intros q Hq Hside. apply elem_of_cons in Hq as [-> | Hq].
    + destruct (P1 Hside) as [v Hv]. exists v. apply elem_of_app. by left.
    + destruct (P2 q Hq Hside) as [v Hv]. exists v. apply elem_of_app. by right.
Qed.

Lemma closeAll_event_no_status ps evs :
  Forall (closeAll_event ps) evs -> status_sent evs = [].
Proof.
  induction 1 as [| e evs Qe _ IH]; [done |].
  destruct e; simpl in *; auto. done.
Qed.

Lemma closeAllPositions_run ps w :
  exchange_fills env -> db_healthy env ->
  positionList_reply env (position_calls w) = inr ps ->
  Forall (fun p => pos_side p = "Buy" \/ pos_side p = "Sell") ps ->
  Forall (fun p => pos_side p = "Sell" -> is_Some (trades w !! pos_id p)) ps ->
  exists w' evs,
    closeAllPositions env w = (Return tt, w') /\
    trace w' = trace w ++ evs /\
    orders_placed evs = map close_order ps /\
    status_sent evs = [] /\
    (forall p, p ∈ ps -> pos_side p = "Sell" ->
     exists v, Ev_log ConsoleLog (TradeProfitLoss (pos_id p) v) ∈ evs).
Proof.
  intros Hf Hd Hl Hs Hrow.
  assert (R : exists w' e2,
    closeAllPositions env w = (Return tt, w') /\
    trace w' = trace w ++ [Ev_positionList (inr ps)] ++ e2 ++
                 [Ev_log PinoInfo AllPositionsClosed] /\
    orders_placed e2 = map close_order ps /\
    (forall p, p ∈ ps -> pos_side p = "Sell" ->
     exists v, Ev_log ConsoleLog (TradeProfitLoss (pos_id p) v) ∈ e2)).
  { unfold closeAllPositions, try_catch, bind at 1, bybit_positionList.
    rewrite Hl. set (w1 := mkWorld _ _ _ _ _ _ _).
    destruct (close_loop_run ps Hf Hd w1 Hs Hrow)
      as (w2 & e2 & E2 & T2 & O2 & P2).
    unfold bind. rewrite E2. simpl.
    eexists. exists e2. split; [reflexivity |]. simpl.
    rewrite T2. simpl. by rewrite <- !app_assoc. }
  destruct R as (w' & e2 & E & T & O & P).
  exists w'. eexists. split; [exact E |]. split; [exact T |].
  split; [by rewrite orders_placed_app; simpl; rewrite orders_placed_app, O; simpl; rewrite app_nil_r |].
  split.
  - pose proof (continues_closeAllPositions env w) as [(evs & T' & Q) _].
    unfold listed in Q. rewrite Hl in Q. rewrite E in T'. simpl in T'.
    rewrite T in T'. apply app_inv_head in T'. rewrite T'.
    by eapply closeAll_event_no_status.
  - intros p Hp Hside. destruct (P p Hp Hside) as [v Hv]. exists v.
    apply elem_of_cons. right. apply elem_of_app. by left.
Qed.

End Flatten.

(** ** Profit and loss *)

(** C4, refuted as stated: the code computes in binary64, where a result
    that needs more than 53 bits, or a decimal price, is rounded. For a Buy
    row with entry price 2^53 and quantity 3 and the exit price 1, all three
    exact, the code returns -27021597764222972 while (x - e) * q is
    -27021597764222973; for entry 0.1, exit 0.3, quantity 1 it does not
    return 0.2. *)
Lemma profitLoss_is_rounded :
  (Binary64.to_Z (Binary64.of_Z (2 ^ 53)) = Some (2 ^ 53) /\
   Binary64.to_Z (Binary64.of_Z 3) = Some 3 /\
   Binary64.to_Z (Binary64.of_Z 1) = Some 1 /\
   Binary64.resolved_Z
     (Binary64.calculateProfitLoss None
        {[ 1 := Binary64.mkRow "Buy" (Binary64.of_Z 3)
                  (Binary64.of_Z (2 ^ 53)) ]}
        1 (Binary64.of_Z 1))
   = Some (-27021597764222972) /\
   (1 - 2 ^ 53) * 3 = -27021597764222973) /\
  Binary64.calculateProfitLoss None
    {[ 1 := Binary64.mkRow "Buy" (Binary64.of_Z 1)
              (Binary64.of_ratio 1 10) ]}
    1 (Binary64.of_ratio 3 10)
  <> Return (Binary64.of_ratio 2 10).
Proof.
  split; [repeat split; vm_compute; reflexivity |].
  intros H. vm_compute in H. discriminate.
Qed.

(** C4, amended. For every trade with entry price e, exit price x and
    quantity q, the computed profit/loss is the binary64 result of
    (x - e) * q when the row's side is 'Buy' and of (e - x) * q when it is
    'Sell': the difference rounded to nearest, then its product with q
    rounded to nearest. In particular Buy 100 -> 110, qty 2 gives +20,
    Sell 100 -> 90, qty 2 gives +20, and Sell 100 -> 110, qty 2 gives -20,
    all exactly. *)
Theorem profitLoss_binary64_formula :
  (forall (table : gmap Z Binary64.Row) id sellPrice row,
     table !! id = Some row ->
     (Binary64.side row = "Buy" ->
      Binary64.calculateProfitLoss None table id sellPrice
      = Return (Binary64.mul (Binary64.sub sellPrice (Binary64.price row))
                  (Binary64.qty row))) /\
     (Binary64.side row = "Sell" ->
      Binary64.calculateProfitLoss None table id sellPrice
      = Return (Binary64.mul (Binary64.sub (Binary64.price row) sellPrice)
                  (Binary64.qty row)))) /\
  Binary64.calculateProfitLoss None
    {[ 1 := Binary64.mkRow "Buy" (Binary64.of_Z 2) (Binary64.of_Z 100) ]}
    1 (Binary64.of_Z 110) = Return (Binary64.of_Z 20) /\
  Binary64.calculateProfitLoss None
    {[ 1 := Binary64.mkRow "Sell" (Binary64.of_Z 2) (Binary64.of_Z 100) ]}
    1 (Binary64.of_Z 90) = Return (Binary64.of_Z 20) /\
  Binary64.calculateProfitLoss None
    {[ 1 := Binary64.mkRow "Sell" (Binary64.of_Z 2) (Binary64.of_Z 100) ]}
    1 (Binary64.of_Z 110) = Return (Binary64.of_Z (-20)).
Proof.
  split; [| repeat split; vm_compute; reflexivity].
  intros table id sellPrice row Hrow.
  unfold Binary64.calculateProfitLoss. rewrite Hrow.
  split; intros ->; reflexivity.
Qed.

Lemma profitLoss_binary64_formula_witness :
  Binary64.resolved_Z
    (Binary64.calculateProfitLoss None
       {[ 1 := Binary64.mkRow "Buy" (Binary64.of_Z 2) (Binary64.of_Z 100) ]}
       1 (Binary64.of_Z 110))
  = Binary64.to_Z
      (Binary64.mul (Binary64.sub (Binary64.of_Z 110) (Binary64.of_Z 100))
         (Binary64.of_Z 2)) /\
  Binary64.to_Z
    (Binary64.mul (Binary64.sub (Binary64.of_Z 110) (Binary64.of_Z 100))
       (Binary64.of_Z 2)) = Some 20.
Proof.
  split; [| vm_compute; reflexivity].
  assert (L : ({[ 1 := Binary64.mkRow "Buy" (Binary64.of_Z 2)
                        (Binary64.of_Z 100) ]} : gmap Z Binary64.Row) !! 1
              = Some (Binary64.mkRow "Buy" (Binary64.of_Z 2)
                        (Binary64.of_Z 100)))
    by apply lookup_singleton_eq.
  rewrite (proj1 (proj1 profitLoss_binary64_formula _ 1 (Binary64.of_Z 110)
                    _ L) eq_refl).
  reflexivity.
Defined.

(** ** The status column *)

Lemma webhook_event_no_update evs :
  Forall webhook_event evs -> count_if is_update evs = 0%nat.
Proof.
  induction 1 as [| e evs Qe _ IH]; [done |].
  destruct e as [| | [] | | | | |]; simpl in *; auto. done.
Qed.

(** C5. In every reachable ledger state every trade row has status 'Open':
    rows are inserted with the default status and no webhook delivery ever
    runs the UPDATE of [updateTradeStatus], which is the statement that
    function always issues. *)
Theorem trades_always_open env reqs :
  all_open (trades (serve env reqs)) /\
  count_if is_update (trace (serve env reqs)) = 0%nat /\
  (forall id w,
     count_if is_update (events_of (updateTradeStatus env id) w) = 1%nat).
Proof.
  destruct (continues_deliveries env reqs initial_world)
    as [(evs & T & Q) [O _]].
  split; [| split].
  - apply O. apply map_Forall_empty.
  - unfold serve. rewrite T. simpl. by apply webhook_event_no_update.
  - intros id w. unfold events_of.
    destruct (updateTradeStatus_run env id w) as (w' & E & T' & _).
    rewrite E. simpl. rewrite (events_between_app _ _ _ T').
    by destruct (db_error env (db_calls w)).
Qed.

(** ** Webhook: topics *)



(** ** Webhook: buy signals *)

Lemma buy_delivery env data signal w :
  body_topic data = Some "notification.create" ->
  body_data data = Some signal ->
  sig_recommendation signal = Some "BUY" ->
  exchange_fills env ->
  exists evs,
    trace (snd (handleTradingViewWebhook env data w)) = trace w ++ evs /\
    orders_placed evs = [(sig_symbol signal, "Buy", ORDER_QUANTITY env)] /\
    status_sent evs = [200%nat].
Proof.
  intros Ht Hd Hr Hf.
  destruct (Hf (order_calls w) (sig_symbol signal) "Buy" (ORDER_QUANTITY env))
    as [order Ho].
  destruct (placeOrder_filled env _ _ _ _ _ Ho) as (w1 & E & T & _).
  rewrite (webhook_buy env data signal w Ht Hd Hr).
  rewrite (respond_returns _ _ _ _ E). simpl. rewrite T.
  eexists. split; [by rewrite <- app_assoc |].
  rewrite orders_placed_app, status_sent_app, orders_placed_filled.
  by destruct (db_error env (db_calls w)).
Qed.

(** C1, refuted as stated: the same BUY notification delivered twice to an
    exchange that confirms orders places two orders, not one. *)
Lemma duplicate_signal_places_two_orders :
  orders_placed
    (trace (serve (env_fills 100 [])
              [notification "BTCUSD" "BUY"; notification "BTCUSD" "BUY"]))
  = [(Some "BTCUSD", "Buy", 1); (Some "BTCUSD", "Buy", 1)] /\
  length (orders_placed
    (trace (serve (env_fills 100 [])
              [notification "BTCUSD" "BUY"; notification "BTCUSD" "BUY"])))
  <> 1%nat.
Proof. split; [reflexivity | discriminate]. Qed.

(** C1, amended. The handler keeps no idempotency key: every delivery of a
    BUY signal that the exchange confirms places one order of the configured
    quantity, so the same signal delivered n times places n orders, and two
    deliveries place two. *)
Theorem repeated_signal_places_one_order_each env data signal n w :
  body_topic data = Some "notification.create" ->
  body_data data = Some signal ->
  sig_recommendation signal = Some "BUY" ->
  exchange_fills env ->
  orders_placed (events_between w (deliveries env (replicate n data) w))
  = replicate n (sig_symbol signal, "Buy", ORDER_QUANTITY env).
Proof.
  intros Ht Hd Hr Hf.
  assert (H : forall w, exists evs,
    trace (deliveries env (replicate n data) w) = trace w ++ evs /\
    orders_placed evs
    = replicate n (sig_symbol signal, "Buy", ORDER_QUANTITY env)).
  { induction n as [| n IH]; intros w0; simpl.
    - exists []. by rewrite app_nil_r.
    - destruct (buy_delivery env data signal w0 Ht Hd Hr Hf)
        as (e1 & T1 & O1 & _).
      destruct (IH (snd (handleTradingViewWebhook env data w0)))
        as (e2 & T2 & O2).
      exists (e1 ++ e2). split.
      + by rewrite T2, T1, app_assoc.
      + by rewrite orders_placed_app, O1, O2. }
  destruct (H w) as (evs & T & O).
  by rewrite (events_between_app _ _ _ T).
Qed.

Lemma repeated_signal_places_one_order_each_witness :
  orders_placed
    (events_between initial_world
       (deliveries (env_fills 100 [])
          (replicate 2 (notification "BTCUSD" "BUY")) initial_world))
  = [(Some "BTCUSD", "Buy", 1); (Some "BTCUSD", "Buy", 1)].
Proof.
  apply (repeated_signal_places_one_order_each (env_fills 100 [])
           (notification "BTCUSD" "BUY")
           (mkSignal (Some "BTCUSD") (Some "BUY")) 2 initial_world);
    try reflexivity.
  intros n symbol side qty. by eexists.
Defined.

(** ** Orders and the ledger *)

(** C2, refuted as stated: the exchange fills the order, the INSERT fails,
    and [placeOrder] still returns the order; Telegram is never called and the
    table has no row for the filled order. *)
Lemma insert_failure_is_swallowed :
  fst (placeOrder env_db_down (Some "BTCUSD") "Buy" 1 initial_world)
  = Return (mkOrder 100) /\
  count_if is_telegram
    (trace (snd (placeOrder env_db_down (Some "BTCUSD") "Buy" 1 initial_world)))
  = 0%nat /\
  trades (snd (placeOrder env_db_down (Some "BTCUSD") "Buy" 1 initial_world))
  = ∅.
Proof. repeat split. Qed.

(** C2, amended. For every order that the exchange confirms, if the
    subsequent INSERT fails, the error message is written to the console
    error log and nothing more: [placeOrder] returns the confirmed order to
    its caller, the notifier is not invoked, and no row is recorded. *)
Theorem insert_failure_only_logged env symbol side qty w order m :
  orderCreate_reply env (order_calls w) symbol side qty = inr order ->
  db_error env (db_calls w) = Some m ->
  let evs := events_of (placeOrder env symbol side qty) w in
  fst (placeOrder env symbol side qty w) = Return order /\
  evs = [Ev_orderCreate symbol side qty (inr order);
         Ev_log PinoInfo (OrderPlaced side qty symbol);
         Ev_dbRun (InsertInto symbol side qty (order_price order)) (Some m);
         Ev_log ConsoleError (ErrorInsertingTrade m)] /\
  count_if is_telegram evs = 0%nat /\
  trades (snd (placeOrder env symbol side qty w)) = trades w.
Proof.
  intros Ho Hdb.
  destruct (placeOrder_filled env _ _ _ _ _ Ho) as (w1 & E & T & D & _).
  unfold events_of. rewrite E. simpl.
  rewrite (events_between_app _ _ _ T), D, Hdb.
  repeat split.
Qed.

Lemma insert_failure_only_logged_witness :
  fst (placeOrder env_db_down (Some "BTCUSD") "Buy" 1 initial_world)
  = Return (mkOrder 100) /\
  trades (snd (placeOrder env_db_down (Some "BTCUSD") "Buy" 1 initial_world))
  = trades initial_world.
Proof.
  pose proof (insert_failure_only_logged env_db_down (Some "BTCUSD") "Buy" 1
                initial_world (mkOrder 100) "SQLITE_IOERR: disk I/O error"
                eq_refl eq_refl) as H.
  simpl in H. destruct H as (R & _ & _ & D).
  split; [exact R | exact D].
Defined.




(** ** Closing all positions *)




(** In the two-position scenario itself the profit/loss is computed once,
    for the Sell position only. *)
Example scenario_profitLoss_computed_once :
  count_if is_profitLoss_call
    (events_of
       (handleTradingViewWebhook (env_fills 100 two_positions)
          (notification "BTCUSD" "SELL"))
       (serve (env_fills 100 two_positions)
          [notification "BTCUSD" "BUY"; notification "ETHUSD" "BUY"]))
  = 1%nat.
Proof. reflexivity. Qed.

(** ** Webhook: recognized topics *)

Lemma status_sent_none (Q : Event -> Prop) evs :
  (forall e, Q e -> status_sent [e] = []) ->
  Forall Q evs -> status_sent evs = [].
Proof.
  intros HQ. induction 1 as [| e evs Qe _ IH]; [done |].
  change (e :: evs) with ([e] ++ evs).
  by rewrite status_sent_app, (HQ e Qe), IH.
Qed.

Lemma respond_status {A} (operation : M A) (Q : Event -> Prop) w :
  (forall e, Q e -> status_sent [e] = []) ->
  continues Q w (snd (operation w)) ->
  status_sent (events_of (respond operation) w) = [200%nat] \/
  status_sent (events_of (respond operation) w) = [500%nat].
Proof.
  intros HQ [(evs & T & F) _]. unfold events_of.
  pose proof (status_sent_none Q evs HQ F) as S.
  destruct (operation w) as [[a | e] w1] eqn:E; simpl in T.
  - left. rewrite (respond_returns _ _ _ _ E). simpl.
    erewrite events_between_app; [| simpl; rewrite T, <- app_assoc; reflexivity].
    by rewrite status_sent_app, S.
  - right. rewrite (respond_throws _ _ _ _ E). simpl.
    erewrite events_between_app;
      [| simpl; rewrite T, <- !app_assoc; reflexivity].
    by rewrite status_sent_app, S.
Qed.

(** C7, refuted as stated: a recognized topic with the recommendation
    'HOLD', or with no symbol and no recommendation at all, is run as a sell
    signal: the open position is closed and the webhook answers 200. *)
Lemma unparseable_signal_is_dispatched :
  (orders_placed
     (events_of
        (handleTradingViewWebhook
           (env_fills 100 [mkPosition 1 "BTCUSD" "Buy" 1 100])
           (notification "BTCUSD" "HOLD")) initial_world)
   = [(Some "BTCUSD", "Sell", 1)] /\
   status_sent
     (events_of
        (handleTradingViewWebhook
           (env_fills 100 [mkPosition 1 "BTCUSD" "Buy" 1 100])
           (notification "BTCUSD" "HOLD")) initial_world)
   = [200%nat]) /\
  (orders_placed
     (events_of
        (handleTradingViewWebhook
           (env_fills 100 [mkPosition 1 "BTCUSD" "Buy" 1 100])
           (mkBody (Some "notification.create") (Some (mkSignal None None))))
        initial_world)
   = [(Some "BTCUSD", "Sell", 1)] /\
   status_sent
     (events_of
        (handleTradingViewWebhook
           (env_fills 100 [mkPosition 1 "BTCUSD" "Buy" 1 100])
           (mkBody (Some "notification.create") (Some (mkSignal None None))))
        initial_world)
   = [200%nat]).
Proof. repeat split. Qed.

(** C7, amended. For every inbound signal whose topic is recognized, the
    handler validates nothing further and never reports a client error: a
    recommendation other than 'BUY', missing or unrecognized ones included,
    is dispatched to the close-all flow, which starts by listing the
    positions; 'BUY' is dispatched to order placement with whatever symbol
    the signal carries, a missing one included; the response is 200 when the
    dispatched operation returns and 500 when anything throws. *)
Theorem recognized_topic_is_dispatched env data w :
  body_topic data = Some "notification.create" ->
  let evs := events_of (handleTradingViewWebhook env data) w in
  (status_sent evs = [200%nat] \/ status_sent evs = [500%nat]) /\
  (forall signal,
     body_data data = Some signal ->
     sig_recommendation signal <> Some "BUY" ->
     handleTradingViewWebhook env data w = respond (closeAllPositions env) w /\
     Ev_positionList (positionList_reply env (position_calls w)) ∈ evs) /\
  (forall signal,
     body_data data = Some signal ->
     sig_recommendation signal = Some "BUY" ->
     handleTradingViewWebhook env data w
     = respond (placeOrder env (sig_symbol signal) "Buy" (ORDER_QUANTITY env)) w
     /\
     Ev_orderCreate (sig_symbol signal) "Buy" (ORDER_QUANTITY env)
       (orderCreate_reply env (order_calls w) (sig_symbol signal) "Buy"
          (ORDER_QUANTITY env)) ∈ evs).
Proof.
  intros Ht evs.
  assert (Hin : forall e, (exists a b,
            trace (snd (handleTradingViewWebhook env data w))
            = trace w ++ a ++ e :: b) -> e ∈ evs).
  { intros e (a & b & T). unfold evs, events_of.
    rewrite (events_between_app _ _ _ T).
    apply elem_of_app. right. apply list_elem_of_here. }
  split; [| split].
  - unfold evs. destruct (body_data data) as [signal |] eqn:Hd.
    + destruct (decide (sig_recommendation signal = Some "BUY")) as [Hr | Hr].
      * unfold events_of. rewrite (webhook_buy env data signal w Ht Hd Hr).
        apply (respond_status _ placeOrder_event).
        { by intros [| | [] | | | | |]. }
        apply respects_placeOrder.
      * unfold events_of. rewrite (webhook_not_buy env data signal w Ht Hd Hr).
        apply (respond_status _ (closeAll_event (listed env w))).
        { by intros [| | [] | | | | |]. }
        apply continues_closeAllPositions.
    + right. unfold events_of, handleTradingViewWebhook, signal_of, try_catch,
        bind, throw, log, sendStatus, emit.
      rewrite Ht, Hd. simpl.
      erewrite events_between_app; [| simpl; by rewrite <- !app_assoc].
      reflexivity.
  - intros signal Hd Hr.
    pose proof (webhook_not_buy env data signal w Ht Hd Hr) as E.
    split; [exact E |]. apply Hin. rewrite E.
    destruct (closeAllPositions_after_list env w) as [(e1 & T1 & _) _].
    simpl in T1. exists [].
    destruct (closeAllPositions env w) as [[a | e] w1] eqn:C; simpl in T1.
    + rewrite (respond_returns _ _ _ _ C). simpl. rewrite T1.
      eexists. by rewrite <- !app_assoc.
    + rewrite (respond_throws _ _ _ _ C). simpl. rewrite T1.
      eexists. by rewrite <- !app_assoc.
  - intros signal Hd Hr.
    pose proof (webhook_buy env data signal w Ht Hd Hr) as E.
    split; [exact E |]. apply Hin. rewrite E. exists [].
    destruct (orderCreate_reply env (order_calls w) (sig_symbol signal) "Buy"
                (ORDER_QUANTITY env)) as [e | order] eqn:Ho.
    + destruct (placeOrder_failed env _ _ _ _ _ Ho) as (w1 & C & T & _).
      rewrite (respond_throws _ _ _ _ C). simpl. rewrite T.
      eexists. by rewrite <- !app_assoc.
    + destruct (placeOrder_filled env _ _ _ _ _ Ho) as (w1 & C & T & _).
      rewrite (respond_returns _ _ _ _ C). simpl. rewrite T.
      eexists. by rewrite <- !app_assoc.
Qed.

Lemma recognized_topic_is_dispatched_witness :
  handleTradingViewWebhook
    (env_fills 100 [mkPosition 1 "BTCUSD" "Buy" 1 100])
    (notification "BTCUSD" "HOLD") initial_world
  = respond (closeAllPositions
               (env_fills 100 [mkPosition 1 "BTCUSD" "Buy" 1 100]))
      initial_world.
Proof.
  exact (proj1 (proj1 (proj2 (recognized_topic_is_dispatched
           (env_fills 100 [mkPosition 1 "BTCUSD" "Buy" 1 100])
           (notification "BTCUSD" "HOLD") initial_world eq_refl))
           (mkSignal (Some "BTCUSD") (Some "HOLD"))
           eq_refl ltac:(discriminate))).
Defined.

(** ** Closing a trade *)

Lemma closed_of_closed row : trade_status row = "Closed" -> closed row = row.
Proof. destruct row. simpl. by intros ->. Qed.

Lemma alter_closed_twice id (t : gmap Z Trade) :
  alter closed id (alter closed id t) = alter closed id t.
Proof.
  apply map_eq. intros i. rewrite !lookup_alter.
  repeat case_decide; try done. subst. destruct (t !! i) as [row |]; reflexivity.
Qed.

(** C8, refuted as stated: closing trade 7 in an empty table, and closing
    trade 1 a second time, both complete normally with the same success line
    as a first close; nothing is thrown. *)
Lemma close_of_missing_or_closed_trade_succeeds :
  (fst (updateTradeStatus (env_fills 100 []) 7 initial_world) = Return tt /\
   events_of (updateTradeStatus (env_fills 100 []) 7) initial_world
   = [Ev_dbRun (UpdateClosed 7) None; Ev_log ConsoleLog TradeStatusUpdated]) /\
  (fst (updateTradeStatus (env_fills 100 []) 1
          (snd (updateTradeStatus (env_fills 100 []) 1
                  (ledger_with "Buy" 1 100)))) = Return tt /\
   events_of (updateTradeStatus (env_fills 100 []) 1)
     (snd (updateTradeStatus (env_fills 100 []) 1 (ledger_with "Buy" 1 100)))
   = [Ev_dbRun (UpdateClosed 1) None; Ev_log ConsoleLog TradeStatusUpdated]).
Proof. repeat split. Qed.

(** C8, amended. [updateTradeStatus] is monotonic and silent: it never
    throws; a row that is Closed stays as it is under any further close
    attempt, and a first close of an existing row sets it to Closed; a close
    attempt on a nonexistent trade leaves the table unchanged and logs the
    success line; a second close attempt on the same trade leaves the table
    unchanged and logs the same success line as the first, so the two are not
    distinguished. *)
Theorem updateTradeStatus_monotonic_silent env id w :
  let w' := snd (updateTradeStatus env id w) in
  fst (updateTradeStatus env id w) = Return tt /\
  (forall id' row,
     trades w !! id' = Some row -> trade_status row = "Closed" ->
     trades w' !! id' = Some row) /\
  (forall row,
     db_error env (db_calls w) = None -> trades w !! id = Some row ->
     trades w' !! id = Some (closed row)) /\
  (trades w !! id = None ->
   trades w' = trades w /\
   (db_error env (db_calls w) = None ->
    events_of (updateTradeStatus env id) w
    = [Ev_dbRun (UpdateClosed id) None;
       Ev_log ConsoleLog TradeStatusUpdated])) /\
  (db_error env (db_calls w) = None ->
   fst (updateTradeStatus env id w') = Return tt /\
   trades (snd (updateTradeStatus env id w')) = trades w' /\
   (db_error env (db_calls w') = None ->
    events_of (updateTradeStatus env id) w'
    = events_of (updateTradeStatus env id) w)).
Proof.
  intros w'. unfold w', events_of.
  destruct (updateTradeStatus_run env id w) as (w1 & E & T & D & C).
  rewrite E. simpl.
  split; [reflexivity |]. split; [| split; [| split]].
  - intros id' row Hrow Hst. rewrite D.
    destruct (db_error env (db_calls w)); [exact Hrow |].
    rewrite lookup_alter. case_decide; [subst id' | exact Hrow].
    rewrite Hrow. simpl. by rewrite closed_of_closed.
  - intros row Hdb Hrow. rewrite D, Hdb, lookup_alter.
    case_decide; [| done]. by rewrite Hrow.
  - intros Hnone. split.
    + rewrite D. destruct (db_error env (db_calls w)); [done |].
      apply map_eq. intros i. rewrite lookup_alter.
      case_decide; [| done]. subst i. by rewrite Hnone.
    + intros Hdb. rewrite (events_between_app _ _ _ T). by rewrite Hdb.
  - intros Hdb.
    destruct (updateTradeStatus_run env id w1) as (w2 & E2 & T2 & D2 & _).
    rewrite E2. simpl. split; [reflexivity |]. split.
    + rewrite D2, D, Hdb.
      destruct (db_error env (db_calls w1)); [done |].
      apply alter_closed_twice.
    + intros Hdb2.
      rewrite (events_between_app _ _ _ T), (events_between_app _ _ _ T2).
      by rewrite Hdb, Hdb2.
Qed.

Lemma updateTradeStatus_monotonic_silent_witness :
  trades (snd (updateTradeStatus (env_fills 100 []) 7 initial_world))
  = trades initial_world /\
  trades (snd (updateTradeStatus (env_fills 100 []) 1
                 (ledger_with "Buy" 1 100))) !! 1
  = Some (mkTrade (Some "BTCUSD") "Buy" 1 100 "Closed").
Proof.
  split.
  - exact (proj1 (proj1 (proj2 (proj2 (proj2
             (updateTradeStatus_monotonic_silent (env_fills 100 []) 7
                initial_world)))) eq_refl)).
  - exact (proj1 (proj2 (proj2
             (updateTradeStatus_monotonic_silent (env_fills 100 []) 1
                (ledger_with "Buy" 1 100))))
             (mkTrade (Some "BTCUSD") "Buy" 1 100 "Open") eq_refl eq_refl).
Defined.

(** ** Further properties *)

Section Preorder.

Variable R : World -> World -> Prop.
Hypothesis R_refl : forall w, R w w.
Hypothesis R_trans : forall a b c, R a b -> R b c -> R a c.

Lemma keeps_ret {A} (a : A) : keeps R (ret a).
Proof. intros w. apply R_refl. Qed.

Lemma keeps_throw {A} e : keeps R (@throw A e).
Proof. intros w. apply R_refl. Qed.

Lemma keeps_bind {A B} (m : M A) (k : A -> M B) :
  keeps R m -> (forall a, keeps R (k a)) -> keeps R (bind m k).
Proof.
  intros Hm Hk w. unfold bind. specialize (Hm w).
  destruct (m w) as [[a | e] w1]; simpl in *; [| exact Hm].
  eapply R_trans; [exact Hm | apply Hk].
Qed.

Lemma keeps_try_catch {A} (body : M A) (handler : JsError -> M A) :
  keeps R body -> (forall e, keeps R (handler e)) ->
  keeps R (try_catch body handler).
Proof.
  intros Hb Hh w. unfold try_catch. specialize (Hb w).
  destruct (body w) as [[a | e] w1]; simpl in *; [exact Hb |].
  eapply R_trans; [exact Hb | apply Hh].
Qed.

Lemma keeps_for_of {A} (xs : list A) (body : A -> M unit) :
  (forall x, keeps R (body x)) -> keeps R (for_of xs body).
Proof.
  intros H. induction xs as [| x rest IH]; simpl.
  - apply keeps_ret.
  - apply keeps_bind; [apply H | intros _; exact IH].
Qed.

End Preorder.

Lemma grows_refl w : grows w w.
Proof.
  exists []. rewrite app_nil_r. simpl. rewrite Z.add_0_r.
  split; [reflexivity |]. split; [reflexivity |]. split; [reflexivity |].
  intros H. split; [exact H | reflexivity].
Qed.

Lemma grows_trans a b c : grows a b -> grows b c -> grows a c.
Proof.
  intros (e1 & T1 & C1 & S1 & D1) (e2 & T2 & C2 & S2 & D2).
  exists (e1 ++ e2). split; [by rewrite T2, T1, app_assoc |].
  split; [by rewrite count_if_app, orders_placed_app, length_app, C1, C2 |].
  split; [rewrite count_if_app, S2, S1; lia |].
  intros Ha. destruct (D1 Ha) as [Hb Sab]. destruct (D2 Hb) as [Hc Sbc].
  split; [exact Hc | by transitivity (trades b)].
Qed.

(** A step that appends silent events and leaves the table alone. *)
Lemma grows_silent w w' evs :
  trace w' = trace w ++ evs -> Forall silent evs ->
  trades w' = trades w -> sqlite_sequence w' = sqlite_sequence w ->
  grows w w'.
Proof.
  intros T F D S. exists evs. split; [exact T |].
  assert (C : count_if is_insert evs = 0%nat /\ orders_placed evs = [] /\
              count_if is_insert_ok evs = 0%nat).
  { clear T. induction F as [| e evs (I & Fl) _ (C1 & C2 & C3)]; [done |].
    unfold count_if, orders_placed in *. simpl. rewrite Fl.
    destruct e as [| | [] [] | | | | |]; simpl in *; try discriminate; auto. }
  destruct C as (-> & -> & ->). simpl. rewrite Z.add_0_r.
  split; [reflexivity |]. split; [exact S |].
  intros [H0 Hd]. unfold dense. by rewrite D, S.
Qed.

Lemma dense_insert w w' row :
  trades w' = <[sqlite_sequence w + 1 := row]> (trades w) ->
  sqlite_sequence w' = sqlite_sequence w + 1 ->
  dense w -> dense w' /\ trades w ⊆ trades w'.
Proof.
  intros D S [H0 Hd]. split; [split |].
  - lia.
  - intros id. rewrite D, S, lookup_insert_is_Some, Hd. lia.
  - rewrite D. apply insert_subseteq.
    destruct (trades w !! (sqlite_sequence w + 1)) eqn:E; [| done].
    assert (H : is_Some (trades w !! (sqlite_sequence w + 1))) by by eexists.
    apply Hd in H. lia.
Qed.

Lemma grows_ret {A} (a : A) : keeps grows (ret a).
Proof. apply keeps_ret, grows_refl. Qed.

Lemma grows_throw {A} e : keeps grows (@throw A e).
Proof. apply keeps_throw, grows_refl. Qed.

Lemma grows_bind {A B} (m : M A) (k : A -> M B) :
  keeps grows m -> (forall a, keeps grows (k a)) -> keeps grows (bind m k).
Proof. apply keeps_bind, grows_trans. Qed.

Lemma grows_try_catch {A} (body : M A) (handler : JsError -> M A) :
  keeps grows body -> (forall e, keeps grows (handler e)) ->
  keeps grows (try_catch body handler).
Proof. apply keeps_try_catch, grows_trans. Qed.

Lemma grows_for_of {A} (xs : list A) (body : A -> M unit) :
  (forall x, keeps grows (body x)) -> keeps grows (for_of xs body).
Proof. apply keeps_for_of; [apply grows_refl | apply grows_trans]. Qed.

Section Growth.

Variable env : Env.

Lemma keeps_emit e : silent e -> keeps grows (emit e).
Proof.
  intros He w. apply (grows_silent _ _ [e]); try reflexivity.
  by constructor.
Qed.

Lemma placeOrder_filled_sequence symbol side qty w order :
  orderCreate_reply env (order_calls w) symbol side qty = inr order ->
  sqlite_sequence (snd (placeOrder env symbol side qty w))
  = match db_error env (db_calls w) with
    | None => sqlite_sequence w + 1
    | Some _ => sqlite_sequence w
    end.
Proof.
  intros H.
  unfold placeOrder, try_catch, bind, bybit_orderCreate, insertTrade, bind,
    db_run.
  rewrite H. simpl.
  by destruct (db_error env (db_calls w)).
Qed.

Lemma keeps_placeOrder symbol side qty :
  keeps grows (placeOrder env symbol side qty).
Proof.
  intros w.
  destruct (orderCreate_reply env (order_calls w) symbol side qty)
    as [e | order] eqn:Ho.
  - destruct (placeOrder_failed env _ _ _ _ _ Ho) as (w1 & E & T & D & S & _).
    rewrite E. simpl. eapply grows_silent; [exact T | | exact D | exact S].
    unfold placeOrder_failed_events.
    destruct (telegram_error env (telegram_calls w));
      repeat constructor.
  - pose proof (placeOrder_filled_sequence _ _ _ _ _ Ho) as S.
    destruct (placeOrder_filled env _ _ _ _ _ Ho) as (w1 & E & T & D & _).
    rewrite E in *. simpl in *.
    exists (placeOrder_filled_events symbol side qty order
              (db_error env (db_calls w))).
    split; [exact T |].
    destruct (db_error env (db_calls w)) as [m |].
    + split; [reflexivity |]. split; [rewrite S; unfold count_if; simpl; lia |].
      intros [H0 Hd]. unfold dense. by rewrite D, S.
    + split; [reflexivity |]. split; [rewrite S; unfold count_if; simpl; lia |].
      by apply dense_insert with (row := mkTrade symbol side qty (order_price order) "Open").
Qed.

Lemma keeps_log lvl line : keeps grows (log lvl line).
Proof. by apply keeps_emit. Qed.

Lemma keeps_sendTelegramMessage message :
  keeps grows (sendTelegramMessage env message).
Proof.
  intros w. unfold sendTelegramMessage.
  destruct (telegram_error env (telegram_calls w)) as [e |]; simpl.
  - apply (grows_silent _ _ [Ev_telegram message (Some e);
                             Ev_log PinoError (TelegramFailure e)]);
      try reflexivity; [simpl; by rewrite <- app_assoc | by repeat constructor].
  - apply (grows_silent _ _ [Ev_telegram message None]);
      try reflexivity. by repeat constructor.
Qed.

Lemma keeps_calculateProfitLoss id sellPrice :
  keeps grows (calculateProfitLoss env id sellPrice).
Proof.
  intros w. unfold calculateProfitLoss, bind, emit, db_get. simpl.
  apply (grows_silent _ _
           [Ev_calculateProfitLoss id sellPrice;
            Ev_dbGet id (db_error env (db_calls w))
              match db_error env (db_calls w) with
              | Some _ => None
              | None => trades w !! id
              end]).
  - destruct (db_error env (db_calls w)); [| destruct (trades w !! id)];
      simpl; by rewrite <- app_assoc.
  - by repeat constructor.
  - by destruct (db_error env (db_calls w)); [| destruct (trades w !! id)].
  - by destruct (db_error env (db_calls w)); [| destruct (trades w !! id)].
Qed.

Lemma keeps_closePosition p : keeps grows (closePosition env p).
Proof.
  unfold closePosition.
  destruct (String.eqb (pos_side p) "Buy").
  - apply grows_bind.
    + apply keeps_placeOrder.
    + intros _. apply grows_ret.
  - destruct (String.eqb (pos_side p) "Sell");
      [| apply grows_ret].
    apply grows_bind.
    + apply keeps_placeOrder.
    + intros _.
      apply grows_bind.
      * apply keeps_calculateProfitLoss.
      * intros v. apply keeps_log.
Qed.

Lemma keeps_closeAllPositions : keeps grows (closeAllPositions env).
Proof.
  apply grows_try_catch.
  - apply grows_bind.
    + intros w. unfold bybit_positionList.
      destruct (positionList_reply env (position_calls w)) eqn:E; simpl;
        (eapply (grows_silent _ _ [_]); try reflexivity;
         by repeat constructor).
    + intros ps. apply grows_bind.
      * apply grows_for_of.
        apply keeps_closePosition.
      * intros _. apply keeps_log.
  - intros e. apply grows_bind.
    + apply keeps_log.
    + intros _. apply grows_bind.
      * apply keeps_sendTelegramMessage.
      * intros _. apply grows_throw.
Qed.

Lemma keeps_handleTradingViewWebhook data :
  keeps grows (handleTradingViewWebhook env data).
Proof.
  apply grows_try_catch.
  - destruct (js_eq (body_topic data) "notification.create").
    + apply grows_bind.
      { unfold signal_of. destruct (body_data data);
          [apply grows_ret | apply grows_throw]. }
      intros signal.
      apply grows_bind;
        [| intros; by apply keeps_emit].
      destruct (String.eqb _ "Buy").
      * apply grows_bind.
        -- apply keeps_placeOrder.
        -- intros _. apply grows_ret.
      * destruct (String.eqb _ "Sell");
          [apply keeps_closeAllPositions | apply grows_ret].
    + apply grows_bind.
      * apply keeps_log.
      * intros _. by apply keeps_emit.
  - intros e. apply grows_bind.
    + apply keeps_log.
    + intros _. by apply keeps_emit.
Qed.

Lemma grows_deliveries reqs w : grows w (deliveries env reqs w).
Proof.
  revert w. induction reqs as [| data reqs IH]; intros w; simpl.
  - apply grows_refl.
  - eapply grows_trans; [apply keeps_handleTradingViewWebhook | apply IH].
Qed.

End Growth.

(** X1. Over any sequence of webhook deliveries, whatever the exchange and
    SQLite answer, the number of INSERT statements issued equals the number
    of orders the exchange confirmed, and the AUTOINCREMENT counter advances
    by the number of INSERTs that SQLite accepted. *)
Theorem inserts_match_confirmed_orders env reqs w :
  let evs := events_between w (deliveries env reqs w) in
  count_if is_insert evs = length (orders_placed evs) /\
  sqlite_sequence (deliveries env reqs w)
  = sqlite_sequence w + Z.of_nat (count_if is_insert_ok evs).
Proof.
  destruct (grows_deliveries env reqs w) as (evs & T & C & S & _).
  simpl. by rewrite (events_between_app _ _ _ T).
Qed.

(** X2. In every state the server can reach, the ids of the trades table are
    exactly 1 .. n, where n is the AUTOINCREMENT counter, and further
    deliveries never change or delete a row that is already there. *)
Theorem ledger_rows_dense_and_kept env reqs more :
  dense (serve env reqs) /\
  trades (serve env reqs) ⊆ trades (serve env (reqs ++ more)).
Proof.
  assert (D0 : dense initial_world).
  { split; [done |]. intros id. simpl. rewrite lookup_empty.
    split; [by intros [? ?] | lia]. }
  destruct (grows_deliveries env reqs initial_world) as (_ & _ & _ & _ & D1).
  destruct (D1 D0) as [D _]. split; [exact D |].
  unfold serve, deliveries. rewrite fold_left_app.
  destruct (grows_deliveries env more (serve env reqs)) as (_ & _ & _ & _ & D2).
  by destruct (D2 D).
Qed.

Lemma orders_sent_app e1 e2 :
  orders_sent (e1 ++ e2) = orders_sent e1 ++ orders_sent e2.
Proof. apply omap_app. Qed.

Lemma quiet_counts evs :
  Forall quiet evs ->
  count_if is_telegram evs = 0%nat /\ orders_sent evs = [] /\
  orders_placed evs = [].
Proof.
  induction 1 as [| e evs [Ht Ha] _ IH]; [done |].
  unfold count_if, orders_sent, orders_placed in *.
  destruct e; simpl in *; try discriminate; exact IH.
Qed.

Lemma close_orders_cons p ps :
  close_orders (p :: ps) = close_orders [p] ++ close_orders ps.
Proof. unfold close_orders. simpl. by destruct (tradable p). Qed.

Section Outcomes.

Variable env : Env.

Lemma placeOrder_outcome symbol side qty w :
  exists evs,
    trace (snd (placeOrder env symbol side qty w)) = trace w ++ evs /\
    orders_sent evs = [(symbol, side, qty)] /\
    match fst (placeOrder env symbol side qty w) with
    | Return _ =>
        count_if is_telegram evs = 0%nat /\
        orders_placed evs = [(symbol, side, qty)]
    | Throw _ =>
        count_if is_telegram evs = 1%nat /\ orders_placed evs = []
    end.
Proof.
  destruct (orderCreate_reply env (order_calls w) symbol side qty)
    as [e | order] eqn:Ho.
  - destruct (placeOrder_failed env _ _ _ _ _ Ho) as (w1 & E & T & _).
    rewrite E. simpl. eexists. split; [exact T |].
    by destruct (telegram_error env (telegram_calls w)).
  - destruct (placeOrder_filled env _ _ _ _ _ Ho) as (w1 & E & T & _).
    rewrite E. simpl. eexists. split; [exact T |].
    by destruct (db_error env (db_calls w)).
Qed.

Lemma calculateProfitLoss_quiet id sellPrice w :
  exists evs,
    trace (snd (calculateProfitLoss env id sellPrice w)) = trace w ++ evs /\
    Forall quiet evs.
Proof.
  destruct (respects_calculateProfitLoss env quiet id sellPrice) with (w := w)
    as [H _]; [done | done | exact H].
Qed.

(** One turn of the loop sends the offsetting order of a Buy or Sell
    position and nothing for any other position. *)
Lemma closePosition_outcome p w :
  exists evs,
    trace (snd (closePosition env p w)) = trace w ++ evs /\
    orders_sent evs = close_orders [p] /\
    match fst (closePosition env p w) with
    | Return _ =>
        count_if is_telegram evs = 0%nat /\
        orders_placed evs = close_orders [p]
    | Throw _ =>
        (count_if is_telegram evs <= 1)%nat /\
        (orders_placed evs = [] \/ orders_placed evs = close_orders [p])
    end.
Proof.
  unfold closePosition, close_orders, tradable, close_order. simpl.
  destruct (String.eqb (pos_side p) "Buy") eqn:EB; simpl; rewrite ?EB.
  - destruct (placeOrder_outcome (Some (pos_symbol p)) "Sell" (pos_size p) w)
      as (evs & T & S & O).
    unfold bind.
    destruct (placeOrder env (Some (pos_symbol p)) "Sell" (pos_size p) w)
      as [[order | e] w1]; simpl in *; exists evs.
    + destruct O as [O1 O2]. auto.
    + destruct O as [O1 O2]. rewrite O1. auto.
  - destruct (String.eqb (pos_side p) "Sell") eqn:ES; simpl; rewrite ?EB.
    + destruct (placeOrder_outcome (Some (pos_symbol p)) "Buy" (pos_size p) w)
        as (evs & T & S & O).
      unfold bind.
      destruct (placeOrder env (Some (pos_symbol p)) "Buy" (pos_size p) w)
        as [[order | e] w1]; simpl in *.
      * destruct O as [O1 O2].
        destruct (calculateProfitLoss_quiet (pos_id p) (pos_entry_price p) w1)
          as (e2 & T2 & Q2).
        destruct (quiet_counts e2 Q2) as (C1 & C2 & C3).
        destruct (calculateProfitLoss env (pos_id p) (pos_entry_price p) w1)
          as [[v | e] w2]; simpl in *.
        -- exists (evs ++ e2 ++
                   [Ev_log ConsoleLog (TradeProfitLoss (pos_id p) v)]).
           split; [by rewrite T2, T, <- !app_assoc |].
           rewrite !orders_sent_app, !orders_placed_app, !count_if_app.
           rewrite S, O1, O2, C1, C2, C3. simpl. auto.
        -- exists (evs ++ e2).
           split; [by rewrite T2, T, <- !app_assoc |].
           rewrite !orders_sent_app, !orders_placed_app, !count_if_app.
           rewrite S, O1, O2, C1, C2, C3. simpl. auto.
      * exists evs. destruct O as [O1 O2]. rewrite O1. auto.
    + exists []. by rewrite app_nil_r.
Qed.

Lemma close_loop_outcome ps w :
  exists evs,
    trace (snd (for_of ps (closePosition env) w)) = trace w ++ evs /\
    orders_sent evs `prefix_of` close_orders ps /\
    orders_placed evs `prefix_of` close_orders ps /\
    (orders_sent evs = orders_placed evs \/
     exists o, orders_sent evs = orders_placed evs ++ [o]) /\
    match fst (for_of ps (closePosition env) w) with
    | Return _ =>
        count_if is_telegram evs = 0%nat /\
        orders_sent evs = close_orders ps /\
        orders_placed evs = close_orders ps
    | Throw _ => (count_if is_telegram evs <= 1)%nat
    end.
Proof.
  revert w. induction ps as [| p ps IH]; intros w.
  - exists []. simpl. rewrite app_nil_r. repeat split; auto.
  - rewrite close_orders_cons. simpl.
    destruct (closePosition_outcome p w) as (e1 & T1 & S1 & O1).
    unfold bind.
    destruct (closePosition env p w) as [[[] | e] w1]; simpl in *.
    + destruct O1 as [G1 P1].
      destruct (IH w1) as (e2 & T2 & S2 & P2 & L2 & O2).
      exists (e1 ++ e2). split; [by rewrite T2, T1, app_assoc |].
      rewrite orders_sent_app, orders_placed_app, count_if_app, S1, P1, G1.
      split; [by apply prefix_app |]. split; [by apply prefix_app |].
      split.
      { destruct L2 as [-> | [o ->]]; [by left | right].
        exists o. by rewrite app_assoc. }
      destruct (fst (for_of ps (closePosition env) w1)); simpl.
      * destruct O2 as (-> & -> & ->). auto.
      * exact O2.
    + destruct O1 as [G1 P1]. exists e1. split; [exact T1 |].
      rewrite S1. split; [by apply prefix_app_r |].
      split; [destruct P1 as [-> | ->];
              [apply prefix_nil | by apply prefix_app_r] |].
      split; [| exact G1].
      destruct P1 as [-> | ->]; [| by left].
      unfold close_orders. simpl.
      destruct (tradable p); [right; by eexists | by left].
Qed.

(** What the catch block of [closeAllPositions] adds: one Telegram message,
    no order. *)
Lemma closeAll_catch_outcome e w :
  exists evs,
    (log PinoError (ErrorClosingPositions (err_message e)) ;;
     sendTelegramMessage env (ErrorClosingPositions (err_message e)) ;;
     @throw unit e) w
    = (Throw e, snd ((log PinoError (ErrorClosingPositions (err_message e)) ;;
         sendTelegramMessage env (ErrorClosingPositions (err_message e)) ;;
         @throw unit e) w)) /\
    trace (snd ((log PinoError (ErrorClosingPositions (err_message e)) ;;
         sendTelegramMessage env (ErrorClosingPositions (err_message e)) ;;
         @throw unit e) w)) = trace w ++ evs /\
    count_if is_telegram evs = 1%nat /\
    orders_sent evs = [] /\ orders_placed evs = [] /\
    trades (snd ((log PinoError (ErrorClosingPositions (err_message e)) ;;
         sendTelegramMessage env (ErrorClosingPositions (err_message e)) ;;
         @throw unit e) w)) = trades w.
Proof.
  unfold bind, log, emit, sendTelegramMessage, throw. simpl.
  destruct (telegram_error env (telegram_calls w)) as [te |]; simpl;
    eexists; (split; [reflexivity |]);
    (split; [by rewrite <- !app_assoc |]); done.
Qed.

Lemma closeAllPositions_outcome w :
  exists evs,
    trace (snd (closeAllPositions env w)) = trace w ++ evs /\
    orders_sent evs `prefix_of` close_orders (listed env w) /\
    orders_placed evs `prefix_of` close_orders (listed env w) /\
    (orders_sent evs = orders_placed evs \/
     exists o, orders_sent evs = orders_placed evs ++ [o]) /\
    match fst (closeAllPositions env w) with
    | Return _ =>
        count_if is_telegram evs = 0%nat /\
        orders_sent evs = close_orders (listed env w) /\
        orders_placed evs = close_orders (listed env w)
    | Throw _ =>
        (1 <= count_if is_telegram evs <= 2)%nat
    end.
Proof.
  assert (H : exists c w' evs,
    closeAllPositions env w = (c, w') /\
    trace w' = trace w ++ evs /\
    orders_sent evs `prefix_of` close_orders (listed env w) /\
    orders_placed evs `prefix_of` close_orders (listed env w) /\
    (orders_sent evs = orders_placed evs \/
     exists o, orders_sent evs = orders_placed evs ++ [o]) /\
    match c with
    | Return _ =>
        count_if is_telegram evs = 0%nat /\
        orders_sent evs = close_orders (listed env w) /\
        orders_placed evs = close_orders (listed env w)
    | Throw _ =>
        (1 <= count_if is_telegram evs <= 2)%nat
    end).
  { unfold closeAllPositions, try_catch, bind at 1, bybit_positionList, listed.
    set (w1 := mkWorld _ _ _ _ _ _ _).
    destruct (positionList_reply env (position_calls w)) as [e | ps].
    - destruct (closeAll_catch_outcome e w1)
        as (e2 & E2 & T2 & G2 & S2 & P2 & _).
      rewrite E2. eexists. eexists.
      exists ([Ev_positionList (inl e)] ++ e2).
      split; [reflexivity |].
      split; [rewrite T2; simpl; by rewrite <- app_assoc |].
      rewrite orders_sent_app, orders_placed_app, count_if_app, S2, P2, G2.
      simpl. repeat split; try apply prefix_nil; try lia. by left.
    - destruct (close_loop_outcome ps w1) as (e1 & T1 & S1 & P1 & L1 & O1).
      unfold bind at 1.
      destruct (for_of ps (closePosition env) w1) as [[[] | e] w2];
        simpl fst in *; simpl snd in *; cbv iota beta.
      + simpl in O1. destruct O1 as (G1 & Se & Pe). eexists. eexists.
        exists ([Ev_positionList (inr ps)] ++ e1 ++
                [Ev_log PinoInfo AllPositionsClosed]).
        split; [reflexivity |].
        split; [simpl; rewrite T1; simpl; by rewrite <- !app_assoc |].
        rewrite !orders_sent_app, !orders_placed_app, !count_if_app.
        rewrite Se, Pe, G1. simpl. rewrite !app_nil_r. auto 10.
      + destruct (closeAll_catch_outcome e w2)
          as (e2 & E2 & T2 & G2 & S2 & P2 & _).
        rewrite E2. eexists. eexists.
        exists ([Ev_positionList (inr ps)] ++ e1 ++ e2).
        split; [reflexivity |].
        split; [rewrite T2, T1; simpl; by rewrite <- !app_assoc |].
        rewrite !orders_sent_app, !orders_placed_app, !count_if_app.
        rewrite S2, P2, G2. simpl. rewrite !app_nil_r.
        simpl in O1. split; [exact S1 |]. split; [exact P1 |].
        split; [exact L1 | lia]. }
  destruct H as (c & w' & evs & E & T & S & P & L & O).
  rewrite E. simpl. exists evs. auto.
Qed.

End Outcomes.

(** What the handler adds after the dispatched operation. *)
Lemma respond_outcome {A} (operation : M A) w evs :
  trace (snd (operation w)) = trace w ++ evs ->
  fst (respond operation w) = Return tt /\
  trades (snd (respond operation w)) = trades (snd (operation w)) /\
  events_of (respond operation) w
  = evs ++ match fst (operation w) with
           | Return _ => [Ev_sendStatus 200]
           | Throw e =>
               [Ev_log PinoError (ErrorProcessingWebhook (err_message e));
                Ev_sendStatus 500]
           end.
Proof.
  intros T. unfold events_of.
  destruct (operation w) as [[a | e] w1] eqn:E; simpl in *.
  - rewrite (respond_returns _ _ _ _ E). simpl.
    repeat split. apply events_between_app. simpl.
    by rewrite T, <- app_assoc.
  - rewrite (respond_throws _ _ _ _ E). simpl.
    repeat split. apply events_between_app. simpl.
    by rewrite T, <- !app_assoc.
Qed.

Lemma webhook_other_topic env data w :
  body_topic data <> Some "notification.create" ->
  handleTradingViewWebhook env data w
  = (log PinoWarn (UnexpectedTopic (body_topic data)) ;; sendStatus 400) w.
Proof.
  intros Ht.
  assert (E : js_eq (body_topic data) "notification.create" = false).
  { destruct (body_topic data) as [t |]; [| done]. simpl.
    apply String.eqb_neq. congruence. }
  unfold handleTradingViewWebhook, try_catch. by rewrite E.
Qed.

Lemma webhook_no_data env data w :
  body_topic data = Some "notification.create" ->
  body_data data = None ->
  handleTradingViewWebhook env data w
  = (log PinoError
       (ErrorProcessingWebhook "Cannot read properties of undefined") ;;
     sendStatus 500) w.
Proof.
  intros Ht Hd.
  unfold handleTradingViewWebhook, try_catch, signal_of, bind at 1 2, throw.
  by rewrite Ht, Hd.
Qed.

Lemma placeOrder_event_counts evs :
  Forall placeOrder_event evs ->
  status_sent evs = [] /\ count_if is_positionList evs = 0%nat /\
  count_if is_profitLoss_call evs = 0%nat.
Proof.
  induction 1 as [| e evs Qe _ IH]; [done |].
  unfold count_if, status_sent in *.
  destruct e as [| | [] | | | | |]; simpl in *; try done.
Qed.

Lemma closeAll_event_counts ps evs :
  Forall (closeAll_event ps) evs ->
  status_sent evs = [] /\ count_if is_update evs = 0%nat.
Proof.
  induction 1 as [| e evs Qe _ IH]; [done |].
  unfold count_if, status_sent in *.
  destruct e as [| | [] | | | | |]; simpl in *; try done.
Qed.

(** X3. Whatever the exchange and SQLite answer, one run of
    [closeAllPositions] sends only the offsetting orders of the listed Buy and
    Sell positions, in the listed order and at most one per position;
    positions with any other side are skipped; every request but possibly
    the last one was confirmed, since the first failure ends the run; when
    the run returns, every such order was sent and confirmed. *)
Theorem closeAllPositions_sends_only_offsetting_orders env w :
  let evs := events_of (closeAllPositions env) w in
  orders_sent evs `prefix_of` close_orders (listed env w) /\
  orders_placed evs `prefix_of` close_orders (listed env w) /\
  (orders_sent evs = orders_placed evs \/
   exists o, orders_sent evs = orders_placed evs ++ [o]) /\
  (fst (closeAllPositions env w) = Return tt ->
   orders_sent evs = close_orders (listed env w) /\
   orders_placed evs = close_orders (listed env w)).
Proof.
  destruct (closeAllPositions_outcome env w) as (evs & T & S & P & L & O).
  simpl. unfold events_of. rewrite (events_between_app _ _ _ T).
  split; [exact S |]. split; [exact P |]. split; [exact L |].
  intros E. rewrite E in O. tauto.
Qed.

Lemma closeAllPositions_sends_only_offsetting_orders_witness :
  orders_placed
    (events_of
       (closeAllPositions
          (env_fills 100 [mkPosition 1 "BTCUSD" "Buy" 1 100;
                          mkPosition 2 "XRPUSD" "None" 0 0]))
       initial_world)
  = [(Some "BTCUSD", "Sell", 1)].
Proof.
  exact (proj2 (proj2 (proj2 (proj2
           (closeAllPositions_sends_only_offsetting_orders
              (env_fills 100 [mkPosition 1 "BTCUSD" "Buy" 1 100;
                              mkPosition 2 "XRPUSD" "None" 0 0])
              initial_world))) eq_refl)).
Defined.

Lemma notified_refl w : notified w w.
Proof. exists []. by rewrite app_nil_r. Qed.

Lemma notified_trans a b c : notified a b -> notified b c -> notified a c.
Proof.
  intros (e1 & T1 & C1) (e2 & T2 & C2). exists (e1 ++ e2).
  split; [by rewrite T2, T1, app_assoc |].
  by rewrite !count_if_app, C1, C2.
Qed.

Lemma quiet_no_failure evs :
  Forall quiet evs -> count_if is_order_failure evs = 0%nat.
Proof.
  induction 1 as [| e evs [Ht Ha] _ IH]; [done |].
  unfold count_if in *. destruct e; simpl in *; try discriminate; exact IH.
Qed.

Lemma notified_quiet w w' evs :
  trace w' = trace w ++ evs -> Forall quiet evs -> notified w w'.
Proof.
  intros T Q. exists evs. split; [exact T |].
  destruct (quiet_counts evs Q) as (-> & _). by rewrite quiet_no_failure.
Qed.

(** Every request is either confirmed or failed. *)
Lemma sent_placed_failed evs :
  length (orders_sent evs)
  = (length (orders_placed evs) + count_if is_order_failure evs)%nat.
Proof.
  induction evs as [| e evs IH]; [done |].
  unfold orders_sent, orders_placed, count_if in *.
  destruct e as [? ? ? [] | | | | | | |]; simpl;
    first [exact IH | f_equal; exact IH
          | rewrite Nat.add_succ_r; f_equal; exact IH].
Qed.

Section Notified.

Variable env : Env.

Lemma notified_placeOrder symbol side qty :
  keeps notified (placeOrder env symbol side qty).
Proof.
  intros w.
  destruct (orderCreate_reply env (order_calls w) symbol side qty)
    as [e | order] eqn:Ho.
  - destruct (placeOrder_failed env _ _ _ _ _ Ho) as (w1 & E & T & _).
    rewrite E. simpl. eexists. split; [exact T |].
    by destruct (telegram_error env (telegram_calls w)).
  - destruct (placeOrder_filled env _ _ _ _ _ Ho) as (w1 & E & T & _).
    rewrite E. simpl. eexists. split; [exact T |].
    by destruct (db_error env (db_calls w)).
Qed.

Lemma notified_log lvl line : keeps notified (log lvl line).
Proof.
  intros w. apply (notified_quiet _ _ [Ev_log lvl line]); [reflexivity |].
  by repeat constructor.
Qed.

Lemma notified_closePosition p : keeps notified (closePosition env p).
Proof.
  unfold closePosition.
  destruct (String.eqb (pos_side p) "Buy").
  - apply keeps_bind; [apply notified_trans | apply notified_placeOrder |].
    intros _. apply keeps_ret, notified_refl.
  - destruct (String.eqb (pos_side p) "Sell");
      [| apply keeps_ret, notified_refl].
    apply keeps_bind; [apply notified_trans | apply notified_placeOrder |].
    intros _. apply keeps_bind; [apply notified_trans | |].
    + intros w.
      destruct (calculateProfitLoss_quiet env (pos_id p) (pos_entry_price p) w)
        as (evs & T & Q).
      by apply (notified_quiet _ _ evs).
    + intros v. apply notified_log.
Qed.

Lemma notified_close_loop ps :
  keeps notified
    (for_of ps (closePosition env) ;; log PinoInfo AllPositionsClosed).
Proof.
  apply keeps_bind; [apply notified_trans | |].
  - apply keeps_for_of;
      [apply notified_refl | apply notified_trans |
       apply notified_closePosition].
  - intros _. apply notified_log.
Qed.

(** The catch block of [closeAllPositions] adds one message of its own. *)
Lemma closeAllPositions_notified w :
  exists evs,
    trace (snd (closeAllPositions env w)) = trace w ++ evs /\
    match fst (closeAllPositions env w) with
    | Return _ => count_if is_telegram evs = count_if is_order_failure evs
    | Throw _ =>
        count_if is_telegram evs = S (count_if is_order_failure evs)
    end.
Proof.
  assert (H : exists c w' evs,
    closeAllPositions env w = (c, w') /\
    trace w' = trace w ++ evs /\
    match c with
    | Return _ => count_if is_telegram evs = count_if is_order_failure evs
    | Throw _ =>
        count_if is_telegram evs = S (count_if is_order_failure evs)
    end).
  { assert (Hc : forall e u, exists e2,
      (log PinoError (ErrorClosingPositions (err_message e)) ;;
       sendTelegramMessage env (ErrorClosingPositions (err_message e)) ;;
       @throw unit e) u
      = (Throw e,
         snd ((log PinoError (ErrorClosingPositions (err_message e)) ;;
               sendTelegramMessage env
                 (ErrorClosingPositions (err_message e)) ;;
               @throw unit e) u)) /\
      trace (snd ((log PinoError (ErrorClosingPositions (err_message e)) ;;
               sendTelegramMessage env
                 (ErrorClosingPositions (err_message e)) ;;
               @throw unit e) u)) = trace u ++ e2 /\
      count_if is_telegram e2 = 1%nat /\
      count_if is_order_failure e2 = 0%nat).
    { intros e u.
      destruct (closeAll_catch_outcome env e u)
        as (e2 & E2 & T2 & G2 & S2 & _).
      exists e2. split; [exact E2 |]. split; [exact T2 |].
      split; [exact G2 |].
      pose proof (sent_placed_failed e2) as L. rewrite S2 in L.
      simpl in L. lia. }
    unfold closeAllPositions, try_catch, bind at 1, bybit_positionList.
    set (w1 := mkWorld _ _ _ _ _ _ _).
    destruct (positionList_reply env (position_calls w)) as [e | ps].
    - destruct (Hc e w1) as (e2 & E2 & T2 & G2 & F2).
      rewrite E2. eexists. eexists.
      exists ([Ev_positionList (inl e)] ++ e2).
      split; [reflexivity |].
      split; [rewrite T2; simpl; by rewrite <- app_assoc |].
      rewrite !count_if_app, G2, F2. reflexivity.
    - destruct (notified_close_loop ps w1) as (e1 & T1 & C1).
      destruct ((for_of ps (closePosition env) ;;
                 log PinoInfo AllPositionsClosed) w1) as [[[] | e] w2];
        simpl in T1.
      + eexists. eexists. exists ([Ev_positionList (inr ps)] ++ e1).
        split; [reflexivity |].
        split; [rewrite T1; simpl; by rewrite <- app_assoc |].
        rewrite !count_if_app, C1. reflexivity.
      + destruct (Hc e w2) as (e2 & E2 & T2 & G2 & F2).
        rewrite E2. eexists. eexists.
        exists ([Ev_positionList (inr ps)] ++ e1 ++ e2).
        split; [reflexivity |].
        split; [rewrite T2, T1; simpl; by rewrite <- !app_assoc |].
        rewrite !count_if_app, C1, G2, F2.
        unfold count_if at 1 3. simpl. lia. }
  destruct H as (c & w' & evs & E & T & C).
  rewrite E. simpl. by exists evs.
Qed.

End Notified.

(** X4. For a recognized topic whose body carries data, the webhook answers
    200 exactly when no Telegram message was sent, and then no order request
    failed. It answers 500 with exactly one message when a BUY order failed.
    When the close-all run failed it answers 500 with one message from
    [closeAllPositions] plus one from [placeOrder] for the order request
    that failed inside it, of which there is at most one: the failure is
    reported twice exactly when [placeOrder] failed inside
    [closeAllPositions], and once otherwise. *)
Theorem failures_reach_notifier env data signal w :
  body_topic data = Some "notification.create" ->
  body_data data = Some signal ->
  let evs := events_of (handleTradingViewWebhook env data) w in
  (status_sent evs = [200%nat] /\
   count_if is_telegram evs = 0%nat /\
   count_if is_order_failure evs = 0%nat) \/
  (status_sent evs = [500%nat] /\
   ((sig_recommendation signal = Some "BUY" /\
     count_if is_order_failure evs = 1%nat /\
     count_if is_telegram evs = 1%nat) \/
    (sig_recommendation signal <> Some "BUY" /\
     (count_if is_order_failure evs <= 1)%nat /\
     count_if is_telegram evs = S (count_if is_order_failure evs)))).
Proof.
  intros Ht Hd. simpl. unfold events_of.
  assert (Tail : forall l : list Event,
    count_if is_telegram l = 0%nat -> count_if is_order_failure l = 0%nat ->
    forall evs,
      count_if is_telegram (evs ++ l) = count_if is_telegram evs /\
      count_if is_order_failure (evs ++ l) = count_if is_order_failure evs).
  { intros l H1 H2 evs. rewrite !count_if_app, H1, H2. lia. }
  destruct (decide (sig_recommendation signal = Some "BUY")) as [Hr | Hr].
  - rewrite (webhook_buy env data signal w Ht Hd Hr).
    destruct (placeOrder_outcome env (sig_symbol signal) "Buy"
                (ORDER_QUANTITY env) w) as (evs & T & S & O).
    destruct (respects_placeOrder env (sig_symbol signal) "Buy"
                (ORDER_QUANTITY env) w) as [(evs' & T' & Q) _].
    rewrite T in T'. apply app_inv_head in T'. subst evs'.
    destruct (placeOrder_event_counts evs Q) as (St & _).
    destruct (respond_outcome _ w evs T) as (_ & _ & E).
    pose proof (sent_placed_failed evs) as L. rewrite S in L.
    unfold events_of in E. rewrite E, status_sent_app, St.
    destruct (fst (placeOrder env (sig_symbol signal) "Buy"
                     (ORDER_QUANTITY env) w));
      destruct O as [G P]; rewrite P in L; simpl in L.
    + left. destruct (Tail [Ev_sendStatus 200] eq_refl eq_refl evs)
        as [-> ->].
      split; [reflexivity |]. split; [exact G | lia].
    + right.
      match goal with
      | |- context [evs ++ ?l] =>
          destruct (Tail l eq_refl eq_refl evs) as [-> ->]
      end.
      split; [reflexivity |]. left.
      split; [exact Hr |]. split; [lia | exact G].
  - rewrite (webhook_not_buy env data signal w Ht Hd Hr).
    destruct (closeAllPositions_outcome env w)
      as (evs & T & _ & _ & Lp & O).
    destruct (closeAllPositions_notified env w) as (evs1 & T1 & N).
    rewrite T in T1. apply app_inv_head in T1. subst evs1.
    destruct (continues_closeAllPositions env w) as [(evs' & T' & Q) _].
    rewrite T in T'. apply app_inv_head in T'. subst evs'.
    destruct (closeAll_event_counts _ evs Q) as (St & _).
    destruct (respond_outcome _ w evs T) as (_ & _ & E).
    pose proof (sent_placed_failed evs) as L.
    assert (F1 : (count_if is_order_failure evs <= 1)%nat).
    { destruct Lp as [Lp | [o Lp]]; rewrite Lp in L;
        rewrite ?length_app in L; simpl in L; lia. }
    unfold events_of in E. rewrite E, status_sent_app, St.
    destruct (fst (closeAllPositions env w)).
    + left. destruct (Tail [Ev_sendStatus 200] eq_refl eq_refl evs)
        as [-> ->].
      destruct O as (G & _ & _).
      split; [reflexivity |]. split; [exact G | lia].
    + right.
      match goal with
      | |- context [evs ++ ?l] =>
          destruct (Tail l eq_refl eq_refl evs) as [-> ->]
      end.
      split; [reflexivity |]. right. auto.
Qed.

Lemma failures_reach_notifier_witness :
  count_if is_telegram
    (events_of (handleTradingViewWebhook (env_rejects two_positions)
                  (notification "BTCUSD" "SELL")) initial_world)
  = 2%nat /\
  count_if is_telegram
    (events_of
       (handleTradingViewWebhook
          (env_fills 100 [mkPosition 7 "ETHUSD" "Sell" 2 50])
          (notification "BTCUSD" "SELL")) initial_world)
  = 1%nat.
Proof.
  split.
  - destruct (failures_reach_notifier (env_rejects two_positions)
                (notification "BTCUSD" "SELL")
                (mkSignal (Some "BTCUSD") (Some "SELL")) initial_world
                eq_refl eq_refl)
      as [(S & _) | (_ & [(B & _) | (_ & _ & G)])];
      [vm_compute in S; discriminate S | discriminate B
      | rewrite G; vm_compute; reflexivity].
  - destruct (failures_reach_notifier
                (env_fills 100 [mkPosition 7 "ETHUSD" "Sell" 2 50])
                (notification "BTCUSD" "SELL")
                (mkSignal (Some "BTCUSD") (Some "SELL")) initial_world
                eq_refl eq_refl)
      as [(S & _) | (_ & [(B & _) | (_ & _ & G)])];
      [vm_compute in S; discriminate S | discriminate B
      | rewrite G; vm_compute; reflexivity].
Defined.

(** X5. A BUY signal under a recognized topic sends exactly one order
    request to the exchange, a Buy of ORDER_QUANTITY for the signal's symbol,
    whatever the exchange answers; it never lists positions and never
    computes a profit/loss. *)
Theorem buy_signal_sends_one_request env data signal w :
  body_topic data = Some "notification.create" ->
  body_data data = Some signal ->
  sig_recommendation signal = Some "BUY" ->
  let evs := events_of (handleTradingViewWebhook env data) w in
  orders_sent evs = [(sig_symbol signal, "Buy", ORDER_QUANTITY env)] /\
  count_if is_positionList evs = 0%nat /\
  count_if is_profitLoss_call evs = 0%nat.
Proof.
  intros Ht Hd Hr. simpl. unfold events_of.
  rewrite (webhook_buy env data signal w Ht Hd Hr).
  destruct (placeOrder_outcome env (sig_symbol signal) "Buy"
              (ORDER_QUANTITY env) w) as (evs & T & S & _).
  destruct (respects_placeOrder env (sig_symbol signal) "Buy"
              (ORDER_QUANTITY env) w) as [(evs' & T' & Q) _].
  rewrite T in T'. apply app_inv_head in T'. subst evs'.
  destruct (placeOrder_event_counts evs Q) as (_ & C1 & C2).
  destruct (respond_outcome _ w evs T) as (_ & _ & E).
  unfold events_of in E. rewrite E, orders_sent_app, !count_if_app, S, C1, C2.
  by destruct (fst (placeOrder env (sig_symbol signal) "Buy"
                      (ORDER_QUANTITY env) w)).
Qed.

Lemma buy_signal_sends_one_request_witness :
  orders_sent
    (events_of (handleTradingViewWebhook env_timeout_once
                  (notification "BTCUSD" "BUY")) initial_world)
  = [(Some "BTCUSD", "Buy", 1)].
Proof.
  exact (proj1 (buy_signal_sends_one_request env_timeout_once
                  (notification "BTCUSD" "BUY")
                  (mkSignal (Some "BTCUSD") (Some "BUY")) initial_world
                  eq_refl eq_refl eq_refl)).
Defined.

(** A parsed body is answered exactly once. *)
Lemma parsed_body_answered_once env data w :
  fst (handleTradingViewWebhook env data w) = Return tt /\
  exists code,
    status_sent (events_of (handleTradingViewWebhook env data) w) = [code] /\
    (code = 200%nat \/ code = 400%nat \/ code = 500%nat) /\
    (code = 400%nat <-> body_topic data <> Some "notification.create").
Proof.
  assert (R : forall {A} (operation : M A) (Q : Event -> Prop),
    (forall e, Q e -> status_sent [e] = []) ->
    continues Q w (snd (operation w)) ->
    fst (respond operation w) = Return tt /\
    exists code,
      status_sent (events_of (respond operation) w) = [code] /\
      (code = 200%nat \/ code = 500%nat)).
  { intros A operation Q HQ [(evs & T & F) _].
    destruct (respond_outcome operation w evs T) as (Rt & _ & E).
    split; [exact Rt |]. rewrite E, status_sent_app.
    rewrite (status_sent_none Q evs HQ F).
    destruct (fst (operation w)); eexists; (split; [reflexivity |]); auto. }
  destruct (decide (body_topic data = Some "notification.create")) as [Ht | Ht].
  - assert (G : fst (handleTradingViewWebhook env data w) = Return tt /\
      exists code,
        status_sent (events_of (handleTradingViewWebhook env data) w) = [code]
        /\ (code = 200%nat \/ code = 500%nat)).
    { unfold events_of. destruct (body_data data) as [signal |] eqn:Hd.
      - destruct (decide (sig_recommendation signal = Some "BUY")) as [Hr | Hr].
        + rewrite (webhook_buy env data signal w Ht Hd Hr).
          apply (R _ _ placeOrder_event).
          * by intros [| | [] | | | | |].
          * apply respects_placeOrder.
        + rewrite (webhook_not_buy env data signal w Ht Hd Hr).
          apply (R _ _ (closeAll_event (listed env w))).
          * by intros [| | [] | | | | |].
          * apply continues_closeAllPositions.
      - rewrite (webhook_no_data env data w Ht Hd).
        split; [reflexivity |]. exists 500%nat. split; [| by right].
        rewrite (events_between_app _ _
                   [Ev_log PinoError
                      (ErrorProcessingWebhook
                         "Cannot read properties of undefined");
                    Ev_sendStatus 500]); [reflexivity |].
        simpl. by rewrite <- app_assoc. }
    destruct G as (Rt & code & S & C). split; [exact Rt |].
    exists code. split; [exact S |].
    split; [tauto |]. split; [| done].
    intros ->. destruct C; discriminate.
  - rewrite (webhook_other_topic env data w Ht).
    split; [reflexivity |]. exists 400%nat.
    split; [| split; [by right; left | by split]].
    unfold events_of. rewrite (webhook_other_topic env data w Ht).
    rewrite (events_between_app _ _
               [Ev_log PinoWarn (UnexpectedTopic (body_topic data));
                Ev_sendStatus 400]); [reflexivity |].
    simpl. by rewrite <- app_assoc.
Qed.


(** X7. Insert and read back: after [placeOrder] is confirmed and its INSERT
    accepted, the table holds, under the next AUTOINCREMENT id, a row with the
    order's symbol, side and quantity, the exchange's fill price and status
    'Open'; [calculateProfitLoss] on that id gets exactly that row back from
    its SELECT and resolves, rather than rejecting with 'Trade not found in
    database.'. *)
Theorem recorded_fill_is_read_back env symbol side qty w order sellPrice :
  orderCreate_reply env (order_calls w) symbol side qty = inr order ->
  db_error env (db_calls w) = None ->
  db_error env (S (db_calls w)) = None ->
  let w1 := snd (placeOrder env symbol side qty w) in
  trades w1 !! (sqlite_sequence w + 1)
  = Some (mkTrade symbol side qty (order_price order) "Open") /\
  sqlite_sequence w1 = sqlite_sequence w + 1 /\
  events_of (calculateProfitLoss env (sqlite_sequence w + 1) sellPrice) w1
  = [Ev_calculateProfitLoss (sqlite_sequence w + 1) sellPrice;
     Ev_dbGet (sqlite_sequence w + 1) None
       (Some (mkTrade symbol side qty (order_price order) "Open"))] /\
  exists v,
    fst (calculateProfitLoss env (sqlite_sequence w + 1) sellPrice w1)
    = Return v.
Proof.
  intros Ho Hdb Hdb2. simpl.
  pose proof (placeOrder_filled_sequence env _ _ _ _ _ Ho) as S.
  destruct (placeOrder_filled env _ _ _ _ _ Ho)
    as (w1 & E & _ & D & _ & _ & C & _).
  rewrite E in *. simpl in *. rewrite Hdb in D, S.
  assert (L : trades w1 !! (sqlite_sequence w + 1)
              = Some (mkTrade symbol side qty (order_price order) "Open"))
    by (rewrite D; apply lookup_insert_eq).
  split; [exact L |]. split; [exact S |].
  rewrite <- C in Hdb2.
  destruct (calculateProfitLoss_found env _ sellPrice w1 _ Hdb2 L)
    as (w2 & E2 & T2 & _).
  unfold events_of. rewrite E2. simpl.
  split; [by apply events_between_app | by eexists].
Qed.

Lemma recorded_fill_is_read_back_witness :
  events_of (calculateProfitLoss (env_fills 100 []) (0 + 1) 110)
    (snd (placeOrder (env_fills 100 []) (Some "BTCUSD") "Buy" 2
            initial_world))
  = [Ev_calculateProfitLoss (0 + 1) 110;
     Ev_dbGet (0 + 1) None
       (Some (mkTrade (Some "BTCUSD") "Buy" 2 100 "Open"))].
Proof.
  exact (proj1 (proj2 (proj2 (recorded_fill_is_read_back (env_fills 100 [])
                  (Some "BTCUSD") "Buy" 2 initial_world (mkOrder 100) 110
                  eq_refl eq_refl eq_refl)))).
Defined.

(** X8. Sign of the result: for a row of positive quantity,
    [calculateProfitLoss] is positive exactly when the exit price is above
    the recorded price for a 'Buy' row and exactly when it is below for any
    other side; it is 0 exactly at the recorded price. *)
Theorem calculateProfitLoss_sign env w id sellPrice row :
  db_error env (db_calls w) = None ->
  trades w !! id = Some row ->
  0 < trade_qty row ->
  exists v,
    fst (calculateProfitLoss env id sellPrice w) = Return v /\
    (v = 0 <-> sellPrice = trade_price row) /\
    (trade_side row = "Buy" -> (0 < v <-> trade_price row < sellPrice)) /\
    (trade_side row <> "Buy" -> (0 < v <-> sellPrice < trade_price row)).
Proof.
  intros Hdb Hrow Hq.
  destruct (calculateProfitLoss_found env id sellPrice w row Hdb Hrow)
    as (w' & E & _).
  rewrite E. eexists. split; [reflexivity |].
  unfold profit_loss.
  destruct (String.eqb (trade_side row) "Buy") eqn:Es.
  - apply String.eqb_eq in Es. split; [nia |]. split; [intros _; nia | done].
  - apply String.eqb_neq in Es. split; [nia |]. split; [done | intros _; nia].
Qed.

Lemma calculateProfitLoss_sign_witness :
  exists v,
    fst (calculateProfitLoss (env_fills 0 []) 1 90 (ledger_with "Sell" 2 100))
    = Return v /\ (0 < v <-> 90 < 100).
Proof.
  destruct (calculateProfitLoss_sign (env_fills 0 [])
              (ledger_with "Sell" 2 100) 1 90
              (mkTrade (Some "BTCUSD") "Sell" 2 100 "Open")
              eq_refl eq_refl ltac:(reflexivity))
    as (v & E & _ & _ & S).
  exists v. split; [exact E | apply S; discriminate].
Defined.

(** X9. [calculateProfitLoss] only reads: it issues no INSERT or UPDATE and
    leaves the table and the AUTOINCREMENT counter as they are, whatever
    happens. It rejects with 'Trade not found in database.' when no row has
    the id, and with SQLite's own error when the SELECT fails. *)
Theorem calculateProfitLoss_reads_only env id sellPrice w :
  let w' := snd (calculateProfitLoss env id sellPrice w) in
  trades w' = trades w /\
  sqlite_sequence w' = sqlite_sequence w /\
  count_if is_ledger_write (events_of (calculateProfitLoss env id sellPrice) w)
  = 0%nat /\
  (db_error env (db_calls w) = None -> trades w !! id = None ->
   fst (calculateProfitLoss env id sellPrice w)
   = Throw (mkError PlainError "Trade not found in database.")) /\
  (forall m, db_error env (db_calls w) = Some m ->
   fst (calculateProfitLoss env id sellPrice w)
   = Throw (mkError SqliteError m)).
Proof.
  simpl. unfold events_of.
  rewrite (events_between_app _ _
             [Ev_calculateProfitLoss id sellPrice;
              Ev_dbGet id (db_error env (db_calls w))
                match db_error env (db_calls w) with
                | Some _ => None
                | None => trades w !! id
                end]).
  - unfold calculateProfitLoss, bind, emit, db_get. simpl.
    destruct (db_error env (db_calls w)) as [m |];
      [| destruct (trades w !! id)]; simpl; repeat split;
      try discriminate; try congruence.
  - unfold calculateProfitLoss, bind, emit, db_get. simpl.
    destruct (db_error env (db_calls w)); [| destruct (trades w !! id)];
      simpl; by rewrite <- app_assoc.
Qed.

Lemma calculateProfitLoss_reads_only_witness :
  fst (calculateProfitLoss (env_fills 100 []) 7 110 initial_world)
  = Throw (mkError PlainError "Trade not found in database.") /\
  fst (calculateProfitLoss env_db_down 1 110 (ledger_with "Buy" 2 100))
  = Throw (mkError SqliteError "SQLITE_IOERR: disk I/O error").
Proof.
  split.
  - exact (proj1 (proj2 (proj2 (proj2
             (calculateProfitLoss_reads_only (env_fills 100 []) 7 110
                initial_world)))) eq_refl eq_refl).
  - exact (proj2 (proj2 (proj2 (proj2
             (calculateProfitLoss_reads_only env_db_down 1 110
                (ledger_with "Buy" 2 100)))))
             "SQLITE_IOERR: disk I/O error" eq_refl).
Defined.

(** X10. [updateTradeStatus] touches one row and one column: rows under any
    other id are untouched, no row is created or deleted, the AUTOINCREMENT
    counter is unchanged, and the targeted row keeps its symbol, side,
    quantity and price, so a profit/loss computed from it is the same before
    and after the close. *)
Theorem updateTradeStatus_touches_only_status env id w :
  let w' := snd (updateTradeStatus env id w) in
  (forall id', id' <> id -> trades w' !! id' = trades w !! id') /\
  (forall id', is_Some (trades w' !! id') <-> is_Some (trades w !! id')) /\
  sqlite_sequence w' = sqlite_sequence w /\
  (forall row row',
     trades w !! id = Some row -> trades w' !! id = Some row' ->
     trade_symbol row' = trade_symbol row /\
     trade_side row' = trade_side row /\
     trade_qty row' = trade_qty row /\
     trade_price row' = trade_price row /\
     forall sellPrice, profit_loss row' sellPrice = profit_loss row sellPrice).
Proof.
  simpl.
  assert (S : sqlite_sequence (snd (updateTradeStatus env id w))
              = sqlite_sequence w).
  { unfold updateTradeStatus, bind, db_run, log, emit.
    by destruct (db_error env (db_calls w)). }
  destruct (updateTradeStatus_run env id w) as (w' & E & _ & D & _).
  rewrite E in *. simpl in *. rewrite D.
  split; [| split; [| split; [exact S |]]].
  - intros id' Hne. destruct (db_error env (db_calls w)); [done |].
    rewrite lookup_alter. case_decide; [congruence | done].
  - intros id'. destruct (db_error env (db_calls w)); [done |].
    rewrite lookup_alter. case_decide; [subst id' | done].
    by rewrite fmap_is_Some.
  - intros row row' Hrow Hrow'.
    assert (Hc : row' = row \/ row' = closed row).
    { destruct (db_error env (db_calls w)); [left; congruence |].
      rewrite lookup_alter in Hrow'. case_decide; [| done].
      rewrite Hrow in Hrow'. simpl in Hrow'. right. congruence. }
    destruct Hc as [-> | ->]; by repeat split.
Qed.

Lemma updateTradeStatus_touches_only_status_witness :
  trade_price (closed (mkTrade (Some "BTCUSD") "Buy" 1 100 "Open"))
  = trade_price (mkTrade (Some "BTCUSD") "Buy" 1 100 "Open").
Proof.
  exact (proj1 (proj2 (proj2 (proj2 (proj2 (proj2 (proj2
           (updateTradeStatus_touches_only_status (env_fills 100 []) 1
              (ledger_with "Buy" 1 100))))
           (mkTrade (Some "BTCUSD") "Buy" 1 100 "Open")
           (closed (mkTrade (Some "BTCUSD") "Buy" 1 100 "Open"))
           eq_refl eq_refl))))).
Defined.

(** X11. When the exchange fails to list the positions, [closeAllPositions]
    rethrows that very error after one Telegram message, without sending any
    order or touching the table, and the webhook answers 500. *)
Theorem positionList_failure_aborts env w e :
  positionList_reply env (position_calls w) = inl e ->
  let evs := events_of (closeAllPositions env) w in
  fst (closeAllPositions env w) = Throw e /\
  orders_sent evs = [] /\
  count_if is_telegram evs = 1%nat /\
  count_if is_ledger_write evs = 0%nat /\
  trades (snd (closeAllPositions env w)) = trades w /\
  (forall data signal,
     body_topic data = Some "notification.create" ->
     body_data data = Some signal ->
     sig_recommendation signal <> Some "BUY" ->
     status_sent (events_of (handleTradingViewWebhook env data) w)
     = [500%nat]).
Proof.
  intros Hl.
  assert (H : exists w' evs,
    closeAllPositions env w = (Throw e, w') /\
    trace w' = trace w ++ evs /\
    orders_sent evs = [] /\ count_if is_telegram evs = 1%nat /\
    count_if is_ledger_write evs = 0%nat /\ status_sent evs = [] /\
    trades w' = trades w).
  { unfold closeAllPositions, try_catch, bind at 1, bybit_positionList.
    rewrite Hl. unfold bind, log, emit, sendTelegramMessage, throw. simpl.
    destruct (telegram_error env (telegram_calls w)) as [te |]; simpl;
      eexists; eexists; (split; [reflexivity |]);
      (split; [simpl; by rewrite <- !app_assoc |]); done. }
  destruct H as (w' & evs & E & T & S & G & L & St & D).
  simpl. unfold events_of. rewrite E. simpl.
  rewrite (events_between_app _ _ _ T).
  repeat (split; [assumption || reflexivity |]).
  intros data signal Ht Hd Hr.
  rewrite (webhook_not_buy env data signal w Ht Hd Hr).
  assert (T' : trace (snd (closeAllPositions env w)) = trace w ++ evs)
    by by rewrite E.
  destruct (respond_outcome _ w evs T') as (_ & _ & R).
  unfold events_of in R. rewrite R, E, status_sent_app, St. reflexivity.
Qed.

Lemma positionList_failure_aborts_witness :
  fst (closeAllPositions
         (mkEnv (fun _ _ _ _ => inr (mkOrder 100))
                (fun _ => inl (mkError Transport "ECONNRESET"))
                (fun _ => None) (fun _ => None) 1)
         initial_world)
  = Throw (mkError Transport "ECONNRESET").
Proof.
  exact (proj1 (positionList_failure_aborts
                  (mkEnv (fun _ _ _ _ => inr (mkOrder 100))
                         (fun _ => inl (mkError Transport "ECONNRESET"))
                         (fun _ => None) (fun _ => None) 1)
                  initial_world (mkError Transport "ECONNRESET") eq_refl)).
Defined.

(** X12. A confirmed BUY is recorded at the exchange's fill price: when the
    exchange confirms the order and SQLite accepts the INSERT, the delivery
    adds exactly one row, under the next id, with the signal's symbol, side
    'Buy', ORDER_QUANTITY, the fill price and status 'Open', and answers
    200. *)
Theorem confirmed_buy_is_recorded env data signal w order :
  body_topic data = Some "notification.create" ->
  body_data data = Some signal ->
  sig_recommendation signal = Some "BUY" ->
  orderCreate_reply env (order_calls w) (sig_symbol signal) "Buy"
    (ORDER_QUANTITY env) = inr order ->
  db_error env (db_calls w) = None ->
  let w' := snd (handleTradingViewWebhook env data w) in
  let evs := events_of (handleTradingViewWebhook env data) w in
  trades w'
  = <[sqlite_sequence w + 1 :=
        mkTrade (sig_symbol signal) "Buy" (ORDER_QUANTITY env)
                (order_price order) "Open"]> (trades w) /\
  count_if is_insert evs = 1%nat /\
  status_sent evs = [200%nat].
Proof.
  intros Ht Hd Hr Ho Hdb. simpl. unfold events_of.
  rewrite (webhook_buy env data signal w Ht Hd Hr).
  destruct (placeOrder_filled env _ _ _ _ _ Ho) as (w1 & E & T & D & _).
  assert (T' : trace (snd (placeOrder env (sig_symbol signal) "Buy"
                             (ORDER_QUANTITY env) w))
               = trace w ++ placeOrder_filled_events (sig_symbol signal) "Buy"
                              (ORDER_QUANTITY env) order
                              (db_error env (db_calls w)))
    by by rewrite E.
  destruct (respond_outcome _ w _ T') as (_ & Dr & R).
  unfold events_of in R. rewrite R, Dr, E. simpl.
  rewrite D, Hdb. repeat split.
Qed.

Lemma confirmed_buy_is_recorded_witness :
  trades (snd (handleTradingViewWebhook (env_fills 100 [])
                 (notification "BTCUSD" "BUY") initial_world))
  = <[0 + 1 := mkTrade (Some "BTCUSD") "Buy" 1 100 "Open"]> ∅.
Proof.
  exact (proj1 (confirmed_buy_is_recorded (env_fills 100 [])
                  (notification "BTCUSD" "BUY")
                  (mkSignal (Some "BTCUSD") (Some "BUY")) initial_world
                  (mkOrder 100) eq_refl eq_refl eq_refl eq_refl eq_refl)).
Defined.

Lemma agree_ret {A} (a : A) : agree (ret a) (ret a).
Proof. by intros w1 w2 H. Qed.

Lemma agree_throw {A} e : agree (@throw A e) (throw e).
Proof. by intros w1 w2 H. Qed.

Lemma agree_bind {A B} (m1 m2 : M A) (k1 k2 : A -> M B) :
  agree m1 m2 -> (forall a, agree (k1 a) (k2 a)) ->
  agree (bind m1 k1) (bind m2 k2).
Proof.
  intros Hm Hk w1 w2 H. unfold bind.
  destruct (Hm w1 w2 H) as [E R].
  destruct (m1 w1) as [[a1 | e1] u1], (m2 w2) as [[a2 | e2] u2];
    simpl in *; try discriminate.
  - injection E as ->. by apply Hk.
  - injection E as ->. by split.
Qed.

Lemma agree_try_catch {A} (b1 b2 : M A) (h1 h2 : JsError -> M A) :
  agree b1 b2 -> (forall e, agree (h1 e) (h2 e)) ->
  agree (try_catch b1 h1) (try_catch b2 h2).
Proof.
  intros Hb Hh w1 w2 H. unfold try_catch.
  destruct (Hb w1 w2 H) as [E R].
  destruct (b1 w1) as [[a1 | e1] u1], (b2 w2) as [[a2 | e2] u2];
    simpl in *; try discriminate.
  - by split.
  - injection E as ->. by apply Hh.
Qed.

Lemma agree_for_of {A} (xs : list A) (b1 b2 : A -> M unit) :
  (forall x, agree (b1 x) (b2 x)) -> agree (for_of xs b1) (for_of xs b2).
Proof.
  intros H. induction xs as [| x rest IH]; simpl.
  - apply agree_ret.
  - apply agree_bind; [apply H | intros _; exact IH].
Qed.

Lemma agree_emit e : agree (emit e) (emit e).
Proof.
  intros w1 w2 (D & S & O & P & C & G & T). split; [reflexivity |].
  repeat split; simpl; try assumption.
  by rewrite !List.filter_app, T.
Qed.

Section Notifier.

Variables env1 env2 : Env.
Hypothesis same : same_but_telegram env1 env2.

Lemma agree_orderCreate symbol side qty :
  agree (bybit_orderCreate env1 symbol side qty)
        (bybit_orderCreate env2 symbol side qty).
Proof.
  intros w1 w2 (D & S & O & P & C & G & T).
  destruct same as (Ho & _). unfold bybit_orderCreate.
  rewrite O, Ho.
  destruct (orderCreate_reply env2 (order_calls w2) symbol side qty);
    (split; [reflexivity |]); repeat split; simpl; try assumption;
    by rewrite !List.filter_app, T.
Qed.

Lemma agree_positionList :
  agree (bybit_positionList env1) (bybit_positionList env2).
Proof.
  intros w1 w2 (D & S & O & P & C & G & T).
  destruct same as (_ & Hp & _). unfold bybit_positionList.
  rewrite P, Hp.
  destruct (positionList_reply env2 (position_calls w2));
    (split; [reflexivity |]); repeat split; simpl; try assumption;
    by rewrite !List.filter_app, T.
Qed.

Lemma agree_db_run stmt : agree (db_run env1 stmt) (db_run env2 stmt).
Proof.
  intros w1 w2 (D & S & O & P & C & G & T).
  destruct same as (_ & _ & Hd & _). unfold db_run, sql_apply.
  rewrite C, Hd, D, S.
  destruct (db_error env2 (db_calls w2)); [| destruct stmt];
    (split; [reflexivity |]); repeat split; simpl; try assumption;
    by rewrite !List.filter_app, T.
Qed.

Lemma agree_db_get id : agree (db_get env1 id) (db_get env2 id).
Proof.
  intros w1 w2 (D & S & O & P & C & G & T).
  destruct same as (_ & _ & Hd & _). unfold db_get.
  rewrite C, Hd, D.
  split; [reflexivity |]. repeat split; simpl; try assumption.
  by rewrite !List.filter_app, T.
Qed.

(** The one place where the two runs differ, invisibly. *)
Lemma agree_sendTelegramMessage message :
  agree (sendTelegramMessage env1 message) (sendTelegramMessage env2 message).
Proof.
  intros w1 w2 (D & S & O & P & C & G & T).
  unfold sendTelegramMessage, log, emit.
  destruct (telegram_error env1 (telegram_calls w1)),
           (telegram_error env2 (telegram_calls w2));
    (split; [reflexivity |]); repeat split; simpl; try assumption;
    try congruence;
    rewrite !List.filter_app; simpl; by rewrite ?app_nil_r, T.
Qed.

Lemma agree_insertTrade symbol side qty price :
  agree (insertTrade env1 symbol side qty price)
        (insertTrade env2 symbol side qty price).
Proof.
  apply agree_bind; [apply agree_db_run |].
  intros [m |]; apply agree_emit.
Qed.

Lemma agree_calculateProfitLoss id sellPrice :
  agree (calculateProfitLoss env1 id sellPrice)
        (calculateProfitLoss env2 id sellPrice).
Proof.
  apply agree_bind; [apply agree_emit |]. intros _.
  apply agree_bind; [apply agree_db_get |].
  intros [[m |] [row |]]; first [apply agree_throw | apply agree_ret].
Qed.

Lemma agree_placeOrder symbol side qty :
  agree (placeOrder env1 symbol side qty) (placeOrder env2 symbol side qty).
Proof.
  apply agree_try_catch.
  - apply agree_bind; [apply agree_orderCreate |]. intros order.
    apply agree_bind; [apply agree_emit |]. intros _.
    apply agree_bind; [apply agree_insertTrade |]. intros _.
    apply agree_ret.
  - intros e. apply agree_bind; [apply agree_emit |]. intros _.
    apply agree_bind; [apply agree_sendTelegramMessage |]. intros _.
    apply agree_throw.
Qed.

Lemma agree_closePosition p :
  agree (closePosition env1 p) (closePosition env2 p).
Proof.
  unfold closePosition.
  destruct (String.eqb (pos_side p) "Buy").
  - apply agree_bind; [apply agree_placeOrder | intros; apply agree_ret].
  - destruct (String.eqb (pos_side p) "Sell"); [| apply agree_ret].
    apply agree_bind; [apply agree_placeOrder |]. intros _.
    apply agree_bind; [apply agree_calculateProfitLoss |].
    intros v. apply agree_emit.
Qed.

Lemma agree_closeAllPositions :
  agree (closeAllPositions env1) (closeAllPositions env2).
Proof.
  apply agree_try_catch.
  - apply agree_bind; [apply agree_positionList |]. intros ps.
    apply agree_bind; [| intros; apply agree_emit].
    apply agree_for_of, agree_closePosition.
  - intros e. apply agree_bind; [apply agree_emit |]. intros _.
    apply agree_bind; [apply agree_sendTelegramMessage |]. intros _.
    apply agree_throw.
Qed.

Lemma agree_handleTradingViewWebhook data :
  agree (handleTradingViewWebhook env1 data)
        (handleTradingViewWebhook env2 data).
Proof.
  apply agree_try_catch.
  - destruct (js_eq (body_topic data) "notification.create").
    + apply agree_bind.
      { unfold signal_of. destruct (body_data data);
          [apply agree_ret | apply agree_throw]. }
      intros signal. apply agree_bind; [| intros; apply agree_emit].
      destruct same as (_ & _ & _ & <-).
      destruct (String.eqb _ "Buy").
      * apply agree_bind; [apply agree_placeOrder | intros; apply agree_ret].
      * destruct (String.eqb _ "Sell");
          [apply agree_closeAllPositions | apply agree_ret].
    + apply agree_bind; [apply agree_emit | intros; apply agree_emit].
  - intros e. apply agree_bind; [apply agree_emit | intros; apply agree_emit].
Qed.

Lemma agree_deliveries reqs w1 w2 :
  alike w1 w2 -> alike (deliveries env1 reqs w1) (deliveries env2 reqs w2).
Proof.
  revert w1 w2. induction reqs as [| data reqs IH]; intros w1 w2 H; simpl.
  - exact H.
  - apply IH. by apply agree_handleTradingViewWebhook.
Qed.

End Notifier.

Lemma alike_refl w : alike w w.
Proof. by repeat split. Qed.

Lemma not_telegram_reads evs :
  status_sent (List.filter not_telegram evs) = status_sent evs /\
  orders_sent (List.filter not_telegram evs) = orders_sent evs /\
  orders_placed (List.filter not_telegram evs) = orders_placed evs.
Proof.
  induction evs as [| e evs (I1 & I2 & I3)]; [done |].
  unfold status_sent, orders_sent, orders_placed in *.
  destruct e as [? ? ? [] | | | | | ? [] | |]; simpl; repeat split;
    first [exact I1 | exact I2 | exact I3
          | f_equal; first [exact I1 | exact I2 | exact I3]].
Qed.

(** X13. The notifier is best effort: whether Telegram accepts or fails any
    message changes nothing else. Two runs of the same deliveries against
    environments that differ only in Telegram's answers send the same order
    requests, get the same confirmations, answer the same status codes and
    end with the same table. *)
Theorem telegram_failures_change_nothing env1 env2 reqs :
  same_but_telegram env1 env2 ->
  trades (serve env1 reqs) = trades (serve env2 reqs) /\
  sqlite_sequence (serve env1 reqs) = sqlite_sequence (serve env2 reqs) /\
  status_sent (trace (serve env1 reqs)) = status_sent (trace (serve env2 reqs)) /\
  orders_sent (trace (serve env1 reqs)) = orders_sent (trace (serve env2 reqs)) /\
  orders_placed (trace (serve env1 reqs))
  = orders_placed (trace (serve env2 reqs)).
Proof.
  intros Hs.
  destruct (agree_deliveries env1 env2 Hs reqs _ _ (alike_refl initial_world))
    as (D & S & _ & _ & _ & _ & T).
  split; [exact D |]. split; [exact S |].
  destruct (not_telegram_reads (trace (serve env1 reqs))) as (<- & <- & <-).
  destruct (not_telegram_reads (trace (serve env2 reqs))) as (<- & <- & <-).
  unfold serve. by rewrite T.
Qed.

Lemma telegram_failures_change_nothing_witness :
  status_sent
    (trace (serve (env_rejects two_positions)
              [notification "BTCUSD" "BUY"; notification "BTCUSD" "SELL"]))
  = status_sent
      (trace (serve (env_rejects_telegram_down two_positions)
                [notification "BTCUSD" "BUY"; notification "BTCUSD" "SELL"])).
Proof.
  assert (H : same_but_telegram (env_rejects two_positions)
                (env_rejects_telegram_down two_positions))
    by (repeat split).
  exact (proj1 (proj2 (proj2
           (telegram_failures_change_nothing _ _
              [notification "BTCUSD" "BUY"; notification "BTCUSD" "SELL"] H)))).
Defined.

(** X14. Nothing to close: when the exchange lists no position with side
    'Buy' or 'Sell' (an empty list included), [closeAllPositions] returns
    after the listing and its completion log line, sends no order, makes no
    database call, leaves the table as it is, and the webhook answers 200. *)
Theorem nothing_to_close_is_a_success env ps w :
  positionList_reply env (position_calls w) = inr ps ->
  Forall (fun p => tradable p = false) ps ->
  fst (closeAllPositions env w) = Return tt /\
  events_of (closeAllPositions env) w
  = [Ev_positionList (inr ps); Ev_log PinoInfo AllPositionsClosed] /\
  trades (snd (closeAllPositions env w)) = trades w /\
  db_calls (snd (closeAllPositions env w)) = db_calls w /\
  (forall data signal,
     body_topic data = Some "notification.create" ->
     body_data data = Some signal ->
     sig_recommendation signal <> Some "BUY" ->
     status_sent (events_of (handleTradingViewWebhook env data) w)
     = [200%nat]).
Proof.
  intros Hl Hn.
  assert (L : forall w0, for_of ps (closePosition env) w0 = (Return tt, w0)).
  { clear Hl. induction Hn as [| p ps Hp _ IH]; intros w0; [reflexivity |].
    simpl. unfold bind, closePosition.
    unfold tradable in Hp. apply orb_false_iff in Hp as [-> ->].
    simpl. apply IH. }
  assert (E : exists w',
    closeAllPositions env w = (Return tt, w') /\
    trace w' = trace w ++ [Ev_positionList (inr ps);
                           Ev_log PinoInfo AllPositionsClosed] /\
    trades w' = trades w /\ db_calls w' = db_calls w).
  { unfold closeAllPositions, try_catch, bind at 1, bybit_positionList.
    rewrite Hl. unfold bind. rewrite L. simpl.
    eexists. split; [reflexivity |]. simpl. by rewrite <- app_assoc. }
  destruct E as (w' & E & T & D & C).
  unfold events_of. rewrite E. simpl.
  rewrite (events_between_app _ _ _ T).
  repeat (split; [assumption || reflexivity |]).
  intros data signal Ht Hd Hr.
  rewrite (webhook_not_buy env data signal w Ht Hd Hr).
  assert (T' : trace (snd (closeAllPositions env w))
               = trace w ++ [Ev_positionList (inr ps);
                             Ev_log PinoInfo AllPositionsClosed])
    by by rewrite E.
  destruct (respond_outcome _ w _ T') as (_ & _ & R).
  unfold events_of in R. by rewrite R, E.
Qed.

Lemma nothing_to_close_is_a_success_witness :
  events_of
    (closeAllPositions (env_fills 100 [mkPosition 2 "XRPUSD" "None" 0 0]))
    initial_world
  = [Ev_positionList (inr [mkPosition 2 "XRPUSD" "None" 0 0]);
     Ev_log PinoInfo AllPositionsClosed].
Proof.
  exact (proj1 (proj2 (nothing_to_close_is_a_success
                  (env_fills 100 [mkPosition 2 "XRPUSD" "None" 0 0])
                  [mkPosition 2 "XRPUSD" "None" 0 0] initial_world
                  eq_refl ltac:(repeat constructor)))).
Defined.

(** ** Profit and loss in the close-all flow *)

Lemma dense_initial : dense initial_world.
Proof.
  split; [done |]. intros id. simpl. rewrite lookup_empty.
  split; [by intros [? ?] | lia].
Qed.

Lemma dense_ledger_with side qty price : dense (ledger_with side qty price).
Proof.
  apply (dense_insert initial_world _
           (mkTrade (Some "BTCUSD") side qty price "Open"));
    [reflexivity | reflexivity | apply dense_initial].
Qed.

Lemma env_fills_confirms price ps : exchange_fills (env_fills price ps).
Proof. intros n symbol side qty. by eexists. Qed.

Lemma env_fills_healthy price ps : db_healthy (env_fills price ps).
Proof. by intros n. Qed.

Section ProfitLossFlow.

Variable env : Env.
Hypothesis fills : exchange_fills env.
Hypothesis healthy : db_healthy env.

Lemma kept_step w0 w w' : kept w0 w -> grows w w' -> kept w0 w'.
Proof.
  intros [D S] (_ & _ & _ & _ & G). destruct (G D) as [D' S'].
  split; [exact D' | by transitivity (trades w)].
Qed.

Lemma closePosition_profitLoss w0 p w :
  kept w0 w ->
  (pos_side p = "Sell" -> is_Some (trades w0 !! pos_id p)) ->
  exists w' evs,
    closePosition env p w = (Return tt, w') /\
    trace w' = trace w ++ evs /\
    kept w0 w' /\
    (pos_side p = "Sell" -> forall row,
       trades w0 !! pos_id p = Some row ->
       exists a, evs = a ++ profitLoss_steps p row).
Proof.
  intros K Hrow.
  pose proof (kept_step _ _ _ K (keeps_closePosition env p w)) as K'.
  revert K'. unfold closePosition.
  destruct (String.eqb (pos_side p) "Buy") eqn:EB.
  - destruct (fills (order_calls w) (Some (pos_symbol p)) "Sell" (pos_size p))
      as [order Ho].
    destruct (placeOrder_filled env _ _ _ _ _ Ho) as (w1 & E & T & _).
    unfold bind. rewrite E. simpl. intros K'.
    eexists. eexists. split; [reflexivity |]. split; [exact T |].
    split; [exact K' |].
    intros Hs. apply String.eqb_eq in EB. rewrite Hs in EB. discriminate.
  - destruct (String.eqb (pos_side p) "Sell") eqn:ES.
    + destruct (fills (order_calls w) (Some (pos_symbol p)) "Buy" (pos_size p))
        as [order Ho].
      destruct (placeOrder_filled env _ _ _ _ _ Ho) as (w1 & E & T & _).
      assert (K1 : kept w0 w1).
      { apply (kept_step _ _ _ K). 
        pose proof (keeps_placeOrder env (Some (pos_symbol p)) "Buy"
                      (pos_size p) w) as G.
        by rewrite E in G. }
      apply String.eqb_eq in ES.
      destruct (Hrow ES) as [row Hr].
      assert (Hr1 : trades w1 !! pos_id p = Some row)
        by (eapply lookup_weaken; [exact Hr | apply K1]).
      destruct (calculateProfitLoss_found env (pos_id p) (pos_entry_price p)
                  w1 row (healthy _) Hr1) as (w2 & E2 & T2 & _).
      unfold bind. rewrite E, E2. simpl. intros K'.
      eexists. eexists. split; [reflexivity |].
      split; [simpl; rewrite T2, T, <- !app_assoc; reflexivity |].
      split; [exact K' |].
      intros _ row' Hr'. rewrite Hr in Hr'. injection Hr' as <-.
      eexists. reflexivity.
    + simpl. intros K'. exists w, [].
      split; [reflexivity |]. split; [by rewrite app_nil_r |].
      split; [exact K |]. intros Hs. apply String.eqb_neq in ES. done.
Qed.

Lemma close_loop_profitLoss w0 ps :
  forall w,
  kept w0 w ->
  Forall (fun p => pos_side p = "Sell" -> is_Some (trades w0 !! pos_id p)) ps ->
  exists w' evs,
    for_of ps (closePosition env) w = (Return tt, w') /\
    trace w' = trace w ++ evs /\
    (forall p, p ∈ ps -> pos_side p = "Sell" -> forall row,
       trades w0 !! pos_id p = Some row ->
       exists a b, evs = a ++ profitLoss_steps p row ++ b).
Proof.
  induction ps as [| p ps IH]; intros w K Hrow.
  - exists w, []. rewrite app_nil_r. repeat split.
    intros p Hp. by apply elem_of_nil in Hp.
  - apply Forall_cons in Hrow as [Hr1 Hr2].
    destruct (closePosition_profitLoss w0 p w K Hr1)
      as (w1 & e1 & E1 & T1 & K1 & P1).
    destruct (IH w1 K1 Hr2) as (w2 & e2 & E2 & T2 & P2).
    exists w2, (e1 ++ e2). simpl. unfold bind. rewrite E1, E2.
    split; [reflexivity |]. split; [by rewrite T2, T1, app_assoc |].
    intros q Hq Hs row Hrow. apply elem_of_cons in Hq as [-> | Hq].
    + destruct (P1 Hs row Hrow) as [a ->].
      exists a, e2. by rewrite <- !app_assoc.
    + destruct (P2 q Hq Hs row Hrow) as (a & b & ->).
      exists (e1 ++ a), b. by rewrite <- !app_assoc.
Qed.

Lemma closeAllPositions_profitLoss ps w :
  dense w ->
  positionList_reply env (position_calls w) = inr ps ->
  Forall (fun p => pos_side p = "Sell" -> is_Some (trades w !! pos_id p)) ps ->
  exists w' evs,
    closeAllPositions env w = (Return tt, w') /\
    trace w' = trace w ++ evs /\
    (forall p, p ∈ ps -> pos_side p = "Sell" -> forall row,
       trades w !! pos_id p = Some row ->
       exists a b, evs = a ++ profitLoss_steps p row ++ b).
Proof.
  intros D Hl Hrow.
  unfold closeAllPositions, try_catch, bind at 1, bybit_positionList.
  rewrite Hl. set (w1 := mkWorld _ _ _ _ _ _ _).
  destruct (close_loop_profitLoss w ps w1) as (w2 & e2 & E2 & T2 & P2);
    [by split | exact Hrow |].
  unfold bind at 1. rewrite E2. simpl.
  eexists. exists ([Ev_positionList (inr ps)] ++ e2 ++
                   [Ev_log PinoInfo AllPositionsClosed]).
  split; [reflexivity |].
  split; [simpl; rewrite T2; simpl; by rewrite <- !app_assoc |].
  intros p Hp Hs row Hr. destruct (P2 p Hp Hs row Hr) as (a & b & ->).
  exists (Ev_positionList (inr ps) :: a),
         (b ++ [Ev_log PinoInfo AllPositionsClosed]).
  simpl. by rewrite <- !app_assoc.
Qed.

End ProfitLossFlow.


